(** * GuaritaIP: the frame codec and the device session client

    A shallow embedding of [guaritaip/GuaritaIP.py] (class [GuaritaIP]) and
    the properties of its frame protocol: checksum framing, BCD decoding,
    the per-command reply rules and the way failures reach the caller.

    Python values are modelled as follows.
    - [str]            : [list ascii] (the row strings and hex payloads are
                         ASCII text);
    - [bytes]          : [list byte];
    - [int]            : [N] where the code only produces naturals (byte
                         sums, nibbles, code points), [Z] for caller-supplied
                         integers ([which_row], [timeout], [dev_type]);
    - an exception     : the [Raise] constructor of [res];
    - a generator      : the list of the values it yields, in order;
    - the socket calls : a state monad over a [world] that records every
                         call made on a socket and supplies what the peer
                         does on each connection. *)

From Stdlib.Strings Require Import Ascii String Byte.
From Stdlib Require Import List NArith ZArith Bool Lia.
Import ListNotations.

(** [String] is loaded for its literals only; lists keep their names. *)
Abbreviation length := Datatypes.length (only parsing).

Open Scope N_scope.

(** ** Python built-ins used by the driver *)

Module Py.

Definition pystr := list ascii.

(** A string literal. *)
Definition lit (s : String.string) : pystr := String.list_ascii_of_string s.

(** The exceptions the driver can let escape.  [binascii.Error] is a subclass
    of [ValueError] and is folded into it; [OSError] stands for the socket
    errors that have no constructor of their own ([ConnectionResetError],
    [BrokenPipeError], ...). *)
Inductive exn :=
| ValueError
| UnicodeDecodeError
| socket_timeout
| ConnectionRefusedError
| BlockingIOError
| OSError.

(** Outcome of a call: a returned value or a raised exception. *)
Inductive res (A : Type) :=
| Ret (a : A)
| Raise (e : exn).
Arguments Ret {A} a.
Arguments Raise {A} e.

Definition of_option {A} (e : exn) (o : option A) : res A :=
  match o with Some a => Ret a | None => Raise e end.

(** [a == b] on sequences, from the equality test of their elements. *)
Fixpoint seq_eqb {A} (eqb : A -> A -> bool) (a b : list A) : bool :=
  match a, b with
  | [], [] => true
  | x :: a', y :: b' => eqb x y && seq_eqb eqb a' b'
  | _, _ => false
  end.

Definition str_eqb : pystr -> pystr -> bool := seq_eqb Ascii.eqb.
Definition bytes_eqb : list byte -> list byte -> bool := seq_eqb Byte.eqb.

(** [s[i:j]] for indices [0 <= i], [0 <= j] (an empty slice when [j <= i]). *)
Definition slice {A} (i j : nat) (s : list A) : list A :=
  firstn (j - i) (skipn i s).

(** [s[i:]] for [0 <= i]. *)
Definition slice_from {A} (i : nat) (s : list A) : list A := skipn i s.

(** [s[-n:]]: the last [n] elements, the whole of [s] when it is shorter. *)
Definition slice_last {A} (n : nat) (s : list A) : list A :=
  skipn (length s - n) s.

(** [range(0, n, 2)]. *)
Definition range_step2 (n : nat) : list nat :=
  map (fun k => 2 * k)%nat (seq 0 (Nat.div2 (n + 1))).

(** [sum(l)]: left to right from 0. *)
Definition sum (l : list N) : N := fold_left N.add l 0.

(** The digit characters of [hex], [str] and [int]. *)
Definition digit_char (d : N) : ascii :=
  nth (N.to_nat d) (lit "0123456789abcdef") "?"%char.

(** Value of a character as a digit, letters in either case. *)
Definition digit_val (c : ascii) : option N :=
  let n := N_of_ascii c in
  if (48 <=? n) && (n <=? 57) then Some (n - 48)
  else if (97 <=? n) && (n <=? 102) then Some (n - 87)
  else if (65 <=? n) && (n <=? 70) then Some (n - 55)
  else None.

(** Digits of [n] in [base], least significant first.  [fuel] bounds the
    number of digits; [numeral] supplies one more than the number of bits of
    [n], which is always enough. *)
Fixpoint digits_rev (base : N) (fuel : nat) (n : N) : pystr :=
  match fuel with
  | O => []
  | S f =>
      if n <? base then [digit_char n]
      else digit_char (n mod base) :: digits_rev base f (n / base)
  end.

Definition numeral (base n : N) : pystr :=
  rev (digits_rev base (S (N.size_nat n)) n).

(** [str(n)] for [n >= 0]. *)
Definition str (n : N) : pystr := numeral 10 n.

(** [str(z)] for any [int]. *)
Definition str_Z (z : Z) : pystr :=
  if (z <? 0)%Z then "-"%char :: str (Z.abs_N z) else str (Z.to_N z).

(** [hex(n)] for [n >= 0]. *)
Definition hex (n : N) : pystr := lit "0x" ++ numeral 16 n.

(** [int(s, base)] on the strings made of digits of that base: [None] is
    [ValueError].  CPython also accepts surrounding white space, a sign, a
    [0x] prefix and single underscores; in this driver every argument of
    [int(_, 16)] is a two-character slice of a string that is then passed
    to [binascii.a2b_hex], which rejects all those characters with an error
    of the same class, and every argument of [int(_)] is a concatenation of
    outputs of [str]. *)
Definition int_of (base : N) (s : pystr) : option N :=
  match s with
  | [] => None
  | _ =>
      fold_left
        (fun acc c =>
           match acc, digit_val c with
           | Some a, Some d => if d <? base then Some (a * base + d) else None
           | _, _ => None
           end)
        s (Some 0)
  end.

(** [s.lstrip(chars)]. *)
Fixpoint lstrip (chars : pystr) (s : pystr) : pystr :=
  match s with
  | [] => []
  | c :: rest =>
      if existsb (Ascii.eqb c) chars then lstrip chars rest else s
  end.

(** [s.zfill(width)]: zeros go after a leading sign. *)
Definition zfill (width : nat) (s : pystr) : pystr :=
  let pad := repeat "0"%char (width - length s) in
  match s with
  | c :: rest =>
      if Ascii.eqb c "+" || Ascii.eqb c "-" then c :: pad ++ rest
      else pad ++ s
  | [] => pad
  end.

(** [''.join(l)]. *)
Definition join (l : list pystr) : pystr := concat l.

(** [binascii.a2b_hex(s)]: [None] is [binascii.Error] (odd length or a
    character that is not a hexadecimal digit). *)
Fixpoint a2b_hex (s : pystr) : option (list byte) :=
  match s with
  | [] => Some []
  | [_] => None
  | a :: b :: rest =>
      match digit_val a, digit_val b, a2b_hex rest with
      | Some x, Some y, Some bs =>
          match Byte.of_N (16 * x + y) with
          | Some c => Some (c :: bs)
          | None => None
          end
      | _, _, _ => None
      end
  end.

(** A list comprehension whose body can raise. *)
Fixpoint mapM {A B} (f : A -> option B) (l : list A) : option (list B) :=
  match l with
  | [] => Some []
  | a :: rest =>
      match f a, mapM f rest with
      | Some b, Some bs => Some (b :: bs)
      | _, _ => None
      end
  end.

(** [b.decode('utf_8')] and [str(b, 'utf_8')] with the default strict error
    handling, on byte values: the code points of the text, or [None] for
    [UnicodeDecodeError].  The accepted sequences are the well-formed ones of
    the Unicode standard (no overlong forms, no surrogates, nothing above
    U+10FFFF). *)
Definition is_cont (b : N) : bool := (0x80 <=? b) && (b <=? 0xBF).

Definition in_range (lo hi b : N) : bool := (lo <=? b) && (b <=? hi).

Definition utf8_second3 (b0 b1 : N) : bool :=
  if b0 =? 0xE0 then in_range 0xA0 0xBF b1
  else if b0 =? 0xED then in_range 0x80 0x9F b1
  else is_cont b1.

Definition utf8_second4 (b0 b1 : N) : bool :=
  if b0 =? 0xF0 then in_range 0x90 0xBF b1
  else if b0 =? 0xF4 then in_range 0x80 0x8F b1
  else is_cont b1.

Fixpoint utf8_decode (bs : list N) : option (list N) :=
  match bs with
  | [] => Some []
  | b0 :: r0 =>
      if b0 <? 0x80 then option_map (cons b0) (utf8_decode r0)
      else if in_range 0xC2 0xDF b0 then
        match r0 with
        | b1 :: r1 =>
            if is_cont b1
            then option_map (cons ((b0 - 0xC0) * 64 + (b1 - 0x80)))
                            (utf8_decode r1)
            else None
        | _ => None
        end
      else if in_range 0xE0 0xEF b0 then
        match r0 with
        | b1 :: b2 :: r2 =>
            if utf8_second3 b0 b1 && is_cont b2
            then option_map
                   (cons ((b0 - 0xE0) * 4096 + (b1 - 0x80) * 64 + (b2 - 0x80)))
                   (utf8_decode r2)
            else None
        | _ => None
        end
      else if in_range 0xF0 0xF4 b0 then
        match r0 with
        | b1 :: b2 :: b3 :: r3 =>
            if utf8_second4 b0 b1 && is_cont b2 && is_cont b3
            then option_map
                   (cons ((b0 - 0xF0) * 262144 + (b1 - 0x80) * 4096
                          + (b2 - 0x80) * 64 + (b3 - 0x80)))
                   (utf8_decode r3)
            else None
        | _ => None
        end
      else None
  end.

(** [s.encode("utf-8")] on a string of code points below 256. *)
Definition utf8_encode (s : pystr) : list byte :=
  flat_map
    (fun c =>
       let n := N_of_ascii c in
       if n <? 0x80 then [byte_of_ascii c]
       else
         match Byte.of_N (0xC0 + n / 64), Byte.of_N (0x80 + n mod 64) with
         | Some b0, Some b1 => [b0; b1]
         | _, _ => []
         end)
    s.

(** [b.decode("ascii")]: [None] is [UnicodeDecodeError]. *)
Definition ascii_decode (bs : list byte) : option pystr :=
  mapM (fun b => if Byte.to_N b <? 0x80 then Some (ascii_of_byte b) else None)
       bs.

(** [datetime.datetime]: the constructor checks the ranges of its fields and
    raises [ValueError] outside them. *)
Record datetime := {
  year : N; month : N; day : N; hour : N; minute : N; second : N
}.

Definition is_leap (y : N) : bool :=
  ((y mod 4 =? 0) && negb (y mod 100 =? 0)) || (y mod 400 =? 0).

Definition days_in_month (y m : N) : N :=
  if m =? 2 then (if is_leap y then 29 else 28)
  else if (m =? 4) || (m =? 6) || (m =? 9) || (m =? 11) then 30
  else 31.

Definition new_datetime (y m d hh mm ss : N) : res datetime :=
  if in_range 1 9999 y && in_range 1 12 m && in_range 1 (days_in_month y m) d
     && (hh <=? 23) && (mm <=? 59) && (ss <=? 59)
  then Ret {| year := y; month := m; day := d;
              hour := hh; minute := mm; second := ss |}
  else Raise ValueError.

End Py.

Import Py.

(** ** The TCP transport

    The driver opens one socket per call of [_send_to_device].  What happens
    on the [k]-th socket is given by [net w k], one outcome for each of the
    three steps of the call, each outcome saying how far the step got:
    the opening (lines 91-93: [settimeout], [connect]), the handshake
    (lines 97-98: [send] of the access code, [recv]) and the exchange
    (lines 101-102: [send] of the command, [recv]), then [close].  Any of
    these calls can raise.  A socket is a byte stream: what a read leaves
    behind is handed to the next read.  Every call made on a socket is
    appended to the trace. *)

Module Net.

(** The opening of a socket. *)
Inductive connect_outcome :=
| Connected                    (* [settimeout] and [connect] return *)
| ConnectTimeout               (* [connect] raises [socket.timeout] *)
| ConnectRefused               (* [connect] raises [ConnectionRefusedError] *)
| ConnectRaises (e : exn)      (* [connect] raises something else:
                                  [BlockingIOError] when the timeout is 0,
                                  another [OSError] *)
| SetTimeoutRaises (e : exn).  (* [settimeout] raises: [ValueError] on a
                                  negative timeout *)

(** A [send] followed by a [recv]. *)
Inductive recv_outcome :=
| Received (data : list byte)  (* the send returns; [data] has reached the
                                  socket since its previous read, nothing
                                  when the peer has closed the connection *)
| RecvTimeout                  (* the send returns; nothing more arrives
                                  before the timeout *)
| RecvRaises (e : exn)         (* the send returns; the read fails *)
| SendRaises (e : exn).        (* the send raises *)

Record peer := {
  on_connect : connect_outcome;
  on_ack : recv_outcome;        (* the access code and the read after it *)
  on_reply : recv_outcome;      (* the command and the read after it *)
  on_close : option exn         (* what [close] raises, if anything *)
}.

Inductive event :=
| ESocket (k : nat)
| ESetTimeout (k : nat) (seconds : Z)
| EConnect (k : nat) (address : pystr) (port : Z)
| ESend (k : nat) (data : list byte)
| ERecv (k : nat) (bufsize : nat)
| EClose (k : nat).

Record world := {
  net : nat -> peer;
  opened : nat;                 (* sockets created so far *)
  trace : list event
}.

(** A socket object: its number, and the bytes it has received that no read
    has taken yet. *)
Record sock := {
  fd : nat;
  unread : list byte
}.

(** Computations that touch the sockets and may raise. *)
Definition IO (A : Type) : Type := world -> res A * world.

Definition ret {A} (a : A) : IO A := fun w => (Ret a, w).

Definition raise {A} (e : exn) : IO A := fun w => (Raise e, w).

Definition bind {A B} (m : IO A) (k : A -> IO B) : IO B :=
  fun w =>
    match m w with
    | (Ret a, w') => k a w'
    | (Raise e, w') => (Raise e, w')
    end.

Definition lift {A} (r : res A) : IO A := fun w => (r, w).

Definition log (e : event) : IO unit :=
  fun w => (Ret tt, {| net := net w; opened := opened w;
                       trace := trace w ++ [e] |}).

(** [try: m  except socket.timeout: h]. *)
Definition try_except_timeout {A} (m : IO A) (h : IO A) : IO A :=
  fun w =>
    match m w with
    | (Raise socket_timeout, w') => h w'
    | r => r
    end.

Declare Scope io_scope.
Delimit Scope io_scope with io.
Notation "x <- m ;; k" := (bind m (fun x => k))
  (at level 61, m at next level, right associativity) : io_scope.
Notation "m ;; k" := (bind m (fun _ => k))
  (at level 61, right associativity) : io_scope.

Local Open Scope io_scope.

(** [socket.socket(AF_INET, SOCK_STREAM)]. *)
Definition socket_new : IO sock :=
  fun w =>
    (Ret {| fd := opened w; unread := [] |},
     {| net := net w; opened := S (opened w);
        trace := trace w ++ [ESocket (opened w)] |}).

Definition settimeout (s : sock) (seconds : Z) : IO unit :=
  log (ESetTimeout (fd s) seconds) ;;
  fun w =>
    match on_connect (net w (fd s)) with
    | SetTimeoutRaises e => (Raise e, w)
    | _ => (Ret tt, w)
    end.

Definition connect (s : sock) (address : pystr) (port : Z) : IO unit :=
  log (EConnect (fd s) address port) ;;
  fun w =>
    match on_connect (net w (fd s)) with
    | Connected => (Ret tt, w)
    | ConnectTimeout => (Raise socket_timeout, w)
    | ConnectRefused => (Raise ConnectionRefusedError, w)
    | ConnectRaises e => (Raise e, w)
    | SetTimeoutRaises e => (Raise e, w)
    end.

Definition send_with (pick : peer -> recv_outcome) (s : sock)
    (data : list byte) : IO unit :=
  log (ESend (fd s) data) ;;
  fun w =>
    match pick (net w (fd s)) with
    | SendRaises e => (Raise e, w)
    | _ => (Ret tt, w)
    end.

(** [recv(bufsize)]: at most [bufsize] of the bytes waiting on the socket,
    with the socket that keeps the rest.  When bytes are waiting the read
    returns them whatever comes next. *)
Definition take (bufsize : nat) (s : sock) (waiting : list byte)
  : list byte * sock :=
  (firstn bufsize waiting, {| fd := fd s; unread := skipn bufsize waiting |}).

Definition recv_with (pick : peer -> recv_outcome) (s : sock) (bufsize : nat)
  : IO (list byte * sock) :=
  log (ERecv (fd s) bufsize) ;;
  fun w =>
    match pick (net w (fd s)), unread s with
    | Received data, _ => (Ret (take bufsize s (unread s ++ data)), w)
    | RecvTimeout, [] => (Raise socket_timeout, w)
    | RecvRaises e, [] => (Raise e, w)
    | SendRaises e, [] => (Raise e, w)
    | _, _ :: _ => (Ret (take bufsize s (unread s)), w)
    end.

Definition send_code := send_with on_ack.
Definition recv_ack := recv_with on_ack.
Definition send_command := send_with on_reply.
Definition recv_reply := recv_with on_reply.

Definition close (s : sock) : IO unit :=
  log (EClose (fd s)) ;;
  fun w =>
    match on_close (net w (fd s)) with
    | Some e => (Raise e, w)
    | None => (Ret tt, w)
    end.

End Net.

Import Net.

(** ** The driver: class [GuaritaIP] *)

Module GuaritaIP.

(** [_add_checksum(input_hex)], lines 20-37.  The list comprehension
    ([byte_values]) slices [input_hex] two characters at a time and reads
    each slice in base 16; [cs] is their sum, rendered on two hexadecimal
    digits and appended before the whole string is converted to bytes. *)
Definition byte_values (input_hex : pystr) : option (list N) :=
  mapM (fun i => int_of 16 (slice i (i + 2) input_hex))
       (range_step2 (length input_hex)).

(** Lines 33-36: the text of the checksum before it is padded. *)
Definition checksum_text (cs : N) : pystr :=
  if 255 <? cs then slice_last 2 (hex cs)
  else lstrip (lit "0x") (hex cs).

Definition _add_checksum (input_hex : pystr) : res (list byte) :=
  match byte_values input_hex with
  | None => Raise ValueError
  | Some vals =>
      let cs := checksum_text (sum vals) in
      of_option ValueError (a2b_hex (input_hex ++ zfill 2 cs))
  end.

(** [_remove_extra_byte(input_hex)], lines 39-52.  The second operand of the
    first comparison is the slice [input_hex[2:2]]. *)
Definition _remove_extra_byte (input_hex : pystr) : pystr :=
  if str_eqb (slice 0 2 input_hex) (slice 2 2 input_hex)
     && str_eqb (slice 0 2 input_hex) (lit "00")
  then slice_from 2 input_hex
  else input_hex.

(** The inner loop of [_bcdDigits], [for val in (char >> 4, char & 0xF)]:
    the values yielded, and whether the generator returned. *)
Fixpoint yield_vals (vals : list N) : list pystr * bool :=
  match vals with
  | [] => ([], false)
  | val :: rest =>
      if val =? 0xF then ([], true)
      else let (ys, returned) := yield_vals rest in (str val :: ys, returned)
  end.

(** [_bcdDigits(chars)], lines 54-68, as the list of the strings it yields.
    [chars] holds one-character strings; each is given by its code point,
    which is what [ord(char)] makes of it. *)
Fixpoint _bcdDigits (chars : list N) : list pystr :=
  match chars with
  | [] => []
  | char :: rest =>
      let (ys, returned) := yield_vals [N.shiftr char 4; N.land char 0xF] in
      if returned then ys else ys ++ _bcdDigits rest
  end.

(** The instance attributes set by [__init__], lines 15-18. *)
Record client := {
  d_address : pystr;
  d_port : Z;
  access_code : pystr;
  default_timeout : Z
}.

(** What [_send_to_device] returns: [False] or the bytes read. *)
Inductive reply :=
| RFalse
| RBytes (data : list byte).

(** [if response:]. *)
Definition truthy (r : reply) : bool :=
  match r with
  | RFalse => false
  | RBytes [] => false
  | RBytes (_ :: _) => true
  end.

(** [response == b'...']: [False] equals no bytes object. *)
Definition reply_eqb (r : reply) (expected : list byte) : bool :=
  match r with
  | RFalse => false
  | RBytes data => bytes_eqb data expected
  end.

Local Open Scope io_scope.

(** [_send_to_device(message, response_size, conn_timeout)], lines 89-104.
    The socket object is passed on by each read, with what the read left
    unread. *)
Definition _send_to_device (self : client) (message : list byte)
    (response_size : nat) (conn_timeout : Z) : IO reply :=
  tcp_conn <- socket_new ;;
  settimeout tcp_conn conn_timeout ;;
  connected <-
    try_except_timeout
      (connect tcp_conn (d_address self) (d_port self) ;; ret true)
      (ret false) ;;
  if negb connected then ret RFalse
  else
    acknowledged <-
      match access_code self with
      | [] => ret (true, tcp_conn)
      | _ :: _ =>
          send_code tcp_conn (utf8_encode (access_code self)) ;;
          ac_response <- recv_ack tcp_conn 12 ;;
          ret (match fst ac_response with [] => false | _ :: _ => true end,
               snd ac_response)
      end ;;
    if negb (fst acknowledged) then ret RFalse
    else
      let tcp_conn := snd acknowledged in
      send_command tcp_conn message ;;
      response <- recv_reply tcp_conn response_size ;;
      close (snd response) ;;
      ret (RBytes (fst response)).

(** [if timeout == 0: timeout = self.default_timeout]. *)
Definition effective_timeout (self : client) (timeout : Z) : Z :=
  if (timeout =? 0)%Z then default_timeout self else timeout.

(** [write_id_str(which_row, row2, row3, timeout)], lines 126-154. *)
Definition write_id_str (self : client) (which_row : Z) (row2 row3 : pystr)
    (timeout : Z) : IO bool :=
  if (20 <? length row2)%nat || (20 <? length row3)%nat then ret false
  else
    let timeout := effective_timeout self timeout in
    msg_row2 <- lift (_add_checksum (lit "0001" ++ row2)) ;;
    if (which_row =? 0)%Z then
      msg_row3 <- lift (_add_checksum (lit "0002" ++ row3)) ;;
      r2 <- _send_to_device self msg_row2 3 timeout ;;
      if reply_eqb r2 [x00; x01; x01] then
        r3 <- _send_to_device self msg_row3 3 timeout ;;
        if reply_eqb r3 [x00; x02; x02] then ret true else ret false
      else ret false
    else if (which_row =? 2)%Z then
      r2 <- _send_to_device self msg_row2 3 timeout ;;
      if reply_eqb r2 [x00; x01; x01] then ret true else ret false
    else if (which_row =? 3)%Z then
      msg_row3 <- lift (_add_checksum (lit "0002" ++ row2)) ;;
      r3 <- _send_to_device self msg_row3 3 timeout ;;
      if reply_eqb r3 [x00; x02; x02] then ret true else ret false
    else ret false.


(** [write_datetime(input_datetime, timeout)], lines 174-182; the argument
    [input_datetime] is not used. *)
Definition write_datetime (self : client) (timeout : Z) : IO bool :=
  let timeout := effective_timeout self timeout in
  response <- _send_to_device self [x00; x0b] 3 timeout ;;
  if reply_eqb response [x00; x0b; x0b] then ret true else ret false.

(** Lines 200-211 of [read_datetime]: what is made of the value returned by
    [_send_to_device]. *)
Definition datetime_of_reply (response : reply) : res datetime :=
  match response with
  | RBytes (b :: bs) =>
      let response := b :: bs in
      match utf8_decode (map Byte.to_N (slice 2 8 response)) with
      | None => Raise UnicodeDecodeError
      | Some chars =>
          let response := _bcdDigits chars in
          match
            int_of 10 (lit "20" ++ join (slice 4 6 response)),
            int_of 10 (join (slice 2 4 response)),
            int_of 10 (join (slice 0 2 response)),
            int_of 10 (join (slice 6 8 response)),
            int_of 10 (join (slice 8 10 response)),
            int_of 10 (join (slice_from 10 response))
          with
          | Some year, Some month, Some day, Some hour, Some minute,
            Some second => new_datetime year month day hour minute second
          | _, _, _, _, _, _ => Raise ValueError
          end
      end
  | _ => new_datetime 1 1 1 0 0 0
  end.

(** [read_datetime(timeout)], lines 196-211. *)
Definition read_datetime (self : client) (timeout : Z) : IO datetime :=
  let timeout := effective_timeout self timeout in
  response <- _send_to_device self [x00; x0c; x0c] 10 timeout ;;
  lift (datetime_of_reply response).


(** [reset(timeout)], lines 233-239. *)
Definition reset (self : client) (timeout : Z) : IO bool :=
  let timeout := effective_timeout self timeout in
  let msg := [x00; x18; x18] in
  r <- _send_to_device self msg 3 timeout ;;
  if reply_eqb r msg then ret true else ret false.

(** [refresh_rx(timeout)], lines 251-255; the default of [timeout] is 15 and
    0 is not replaced. *)
Definition refresh_rx (self : client) (timeout : Z) : IO bool :=
  let msg := [x00; x1d; x1d] in
  r <- _send_to_device self msg 4 timeout ;;
  if reply_eqb r [x00; x1d; x00; x1d] then ret true else ret false.

(** [read_rxfm_version(dev_type, dev_can_address, timeout)], lines 280-289. *)
Definition read_rxfm_version (self : client) (dev_type dev_can_address : Z)
    (timeout : Z) : IO pystr :=
  let timeout := effective_timeout self timeout in
  let dev_type := lit "0" ++ str_Z dev_type in
  let dev_can_address := lit "0" ++ str_Z (dev_can_address - 1) in
  msg <- lift (_add_checksum (lit "003d" ++ dev_type ++ dev_can_address)) ;;
  response <- _send_to_device self msg 11 timeout ;;
  if truthy response then
    match response with
    | RBytes data => lift (of_option UnicodeDecodeError
                             (ascii_decode (slice 4 9 data)))
    | RFalse => ret []
    end
  else ret [].

End GuaritaIP.

Import GuaritaIP.

(** ** Reference definitions, in the words of the specification *)

(** The checksum of a frame body: the sum of its bytes modulo 256. *)
Definition checksum (body : list byte) : N :=
  sum (map Byte.to_N body) mod 256.

(** The nibbles of a byte sequence, high before low. *)
Definition nibbles (bs : list N) : list N :=
  flat_map (fun b => [b / 16; b mod 16]) bs.

(** The longest prefix without the terminator nibble. *)
Fixpoint until_terminator (vs : list N) : list N :=
  match vs with
  | [] => []
  | v :: rest => if v =? 15 then [] else v :: until_terminator rest
  end.

(** Even-length strings of hexadecimal digits. *)
Definition is_hex_digit (c : ascii) : bool :=
  match digit_val c with Some _ => true | None => false end.

Definition hex_string (h : pystr) : Prop :=
  Nat.even (length h) = true /\ forallb is_hex_digit h = true.

(** A one-character string holding a decimal digit. *)
Definition decimal_digit_char (s : pystr) : Prop :=
  exists d, d < 10 /\ s = [ascii_of_N (48 + d)].

(** The timestamp returned for a failed read, [datetime(1,1,1)]. *)
Definition sentinel : datetime :=
  {| year := 1; month := 1; day := 1; hour := 0; minute := 0; second := 0 |}.

(** A returned value that tests false: [False] or no bytes. *)
Definition falsy (r : reply) : Prop := r = RFalse \/ r = RBytes [].

(** The access-code handshake goes through: there is no access code, or the
    read after it returns at least one byte. *)
Definition handshake_passes (self : client) (p : peer) : Prop :=
  access_code self = []
  \/ exists b data, on_ack p = Received (b :: data).

(** What the handshake read leaves on the socket: the bytes of the
    acknowledgment beyond the 12 that it asks for. *)
Definition surplus (self : client) (p : peer) : list byte :=
  match access_code self, on_ack p with
  | _ :: _, Received data => skipn 12 data
  | _, _ => []
  end.


(** ** Sample clients and peers *)

Module Sample.

Definition device : client :=
  {| d_address := lit "192.168.0.10"; d_port := 9000;
     access_code := lit "1234"; default_timeout := 1 |}.

(** A peer that acknowledges the access code and answers [data]. *)
Definition answering (data : list byte) : peer :=
  {| on_connect := Connected; on_ack := Received [x4f; x4b];
     on_reply := Received data; on_close := None |}.

(** A peer that cannot be reached before the timeout. *)
Definition unreachable : peer :=
  {| on_connect := ConnectTimeout; on_ack := RecvTimeout;
     on_reply := RecvTimeout; on_close := None |}.

(** A fresh world in which every socket meets the peer [p]. *)
Definition world_of (p : peer) : world :=
  {| net := fun _ => p; opened := 0; trace := [] |}.


End Sample.

(** ** Further reference definitions *)

(** The byte that packs a two-digit decimal field, tens in the high nibble. *)
Definition bcd (n : N) : N := 16 * (n / 10) + n mod 10.

(** Lines 286-289 of [read_rxfm_version]: what is made of the value returned
    by [_send_to_device]. *)
Definition version_of_reply (response : reply) : res pystr :=
  if truthy response then
    match response with
    | RBytes data => of_option UnicodeDecodeError (ascii_decode (slice 4 9 data))
    | RFalse => Ret []
    end
  else Ret [].

(** The request text of [read_rxfm_version], line 284. *)
Definition version_request (dev_type dev_can_address : Z) : pystr :=
  lit "003d" ++ (lit "0" ++ str_Z dev_type)
  ++ (lit "0" ++ str_Z (dev_can_address - 1)).

(** The events of the opening of socket [k]: creation, timeout, connect. *)
Definition opening (self : client) (k : nat) (conn_timeout : Z) : list event :=
  [ESocket k; ESetTimeout k conn_timeout;
   EConnect k (d_address self) (d_port self)].

(** The events of the access-code handshake on socket [k]. *)
Definition handshake (self : client) (k : nat) : list event :=
  match access_code self with
  | [] => []
  | _ :: _ => [ESend k (utf8_encode (access_code self)); ERecv k 12]
  end.

(** Failures of the transport that [_send_to_device] does not catch: a
    refused connection, and a read that times out with nothing waiting on
    the socket. *)
Inductive transport_raises (self : client) (p : peer) : exn -> Prop :=
| connection_refused :
    on_connect p = ConnectRefused ->
    transport_raises self p ConnectionRefusedError
| acknowledgment_timed_out :
    on_connect p = Connected -> access_code self <> [] ->
    on_ack p = RecvTimeout -> transport_raises self p socket_timeout
| reply_timed_out :
    on_connect p = Connected -> handshake_passes self p ->
    surplus self p = [] ->
    on_reply p = RecvTimeout -> transport_raises self p socket_timeout.

(** ** Further sample clients and peers *)

Module Scenario.

(** A client with no access code. *)
Definition open_device : client :=
  {| d_address := lit "10.0.0.2"; d_port := 9000;
     access_code := []; default_timeout := 2 |}.

(** A peer that accepts the connection and closes it without a byte. *)
Definition silent : peer :=
  {| on_connect := Connected; on_ack := Received [];
     on_reply := Received []; on_close := None |}.

(** A peer whose acknowledgment has 14 bytes, the last two being [ED], and
    that has sent nothing more when the reply is read. *)
Definition talkative : peer :=
  {| on_connect := Connected;
     on_ack := Received [x41; x43; x4b; x4e; x4f; x57; x4c; x45; x44; x47;
                         x45; x44; x45; x44];
     on_reply := Received []; on_close := None |}.

(** A peer that acknowledges and then never answers. *)
Definition stalling : peer :=
  {| on_connect := Connected; on_ack := Received [x4f; x4b];
     on_reply := RecvTimeout; on_close := None |}.

(** A world in which the first socket meets [p] and the later ones [q]. *)
Definition world_first (p q : peer) : world :=
  {| net := fun k => match k with O => p | S _ => q end;
     opened := 0; trace := [] |}.

(** A reply to "read date and time" for 2024-02-29 23:59:58. *)
Definition leap_day_reply : list byte :=
  [x00; x0c; x29; x02; x24; x23; x59; x58; x00; x0c].

(** A reply to "read date and time" for the year 2085. *)
Definition year_2085_reply : list byte :=
  [x00; x0c; x01; x01; x85; x00; x00; x00; x00; x0c].

(** A reply to "read firmware version" carrying the text [2005y]. *)
Definition version_reply : list byte :=
  [x00; x3d; x01; x00; x32; x30; x30; x35; x79; x00; x00].

End Scenario.

(** * Properties *)


Example hex_0 : hex 0 = lit "0x0". Proof. reflexivity. Qed.
Example hex_255 : hex 255 = lit "0xff". Proof. reflexivity. Qed.
Example hex_256 : hex 256 = lit "0x100". Proof. reflexivity. Qed.
Example str_14 : str 14 = lit "14". Proof. reflexivity. Qed.
Example str_Z_neg : str_Z (-1) = lit "-1". Proof. reflexivity. Qed.
Example zfill_a : zfill 2 (lit "a") = lit "0a". Proof. reflexivity. Qed.
Example lstrip_0x0 : lstrip (lit "0x") (hex 0) = []. Proof. reflexivity. Qed.
Example a2b_ok : a2b_hex (lit "001dFf") = Some [x00; x1d; xff]. Proof. reflexivity. Qed.
Example int_1d : int_of 16 (lit "1d") = Some 29. Proof. reflexivity. Qed.
Example range_5 : range_step2 5 = [0; 2; 4]%nat. Proof. reflexivity. Qed.

(** ** Sequences and slices *)

Lemma seq_eqb_eq {A} (eqb : A -> A -> bool) :
  (forall x y, eqb x y = true <-> x = y) ->
  forall a b, seq_eqb eqb a b = true <-> a = b.
Proof.
  intros Heq a; induction a as [|x a IH]; intros [|y b]; simpl;
    try (split; [discriminate | discriminate]); [tauto|].
  rewrite andb_true_iff, Heq, IH.
  split; [intros [-> ->]; reflexivity | intros E; inversion E; auto].
Qed.

Lemma str_eqb_eq a b : str_eqb a b = true <-> a = b.
Proof. apply seq_eqb_eq, Ascii.eqb_eq. Qed.

Lemma bytes_eqb_eq a b : bytes_eqb a b = true <-> a = b.
Proof.
  apply seq_eqb_eq; intros x y; split;
    [apply Byte.byte_dec_bl | apply Byte.byte_dec_lb].
Qed.

Lemma slice_empty {A} (i : nat) (s : list A) : slice i i s = [].
Proof. unfold slice; rewrite Nat.sub_diag; reflexivity. Qed.

(** A list is empty, a singleton, or two elements ahead of a list. *)
Lemma list_pair_ind {A} (P : list A -> Prop) :
  P [] -> (forall a, P [a]) -> (forall a b l, P l -> P (a :: b :: l)) ->
  forall l, P l.
Proof.
  intros H0 H1 H2.
  fix IH 1; intros [|a [|b l]]; [exact H0 | exact (H1 a) |].
  apply H2, IH.
Qed.

(** ** [_remove_extra_byte] *)

(** The guard compares with the empty slice [input_hex[2:2]], so it never
    holds. *)
Lemma remove_extra_byte_guard (h : pystr) :
  str_eqb (slice 0 2 h) (slice 2 2 h) && str_eqb (slice 0 2 h) (lit "00")
  = false.
Proof.
  rewrite slice_empty.
  destruct h as [|a [|b h]]; reflexivity.
Qed.

Lemma remove_extra_byte_id (h : pystr) : _remove_extra_byte h = h.
Proof. unfold _remove_extra_byte; rewrite remove_extra_byte_guard; reflexivity. Qed.

(** ** [_bcdDigits] *)

Lemma nibble_hi (c : N) : N.shiftr c 4 = c / 16.
Proof. rewrite N.shiftr_div_pow2; reflexivity. Qed.

Lemma nibble_lo (c : N) : N.land c 0xF = c mod 16.
Proof. change 0xF with (N.ones 4); rewrite N.land_ones; reflexivity. Qed.

Lemma bcdDigits_cons (c : N) (rest : list N) :
  _bcdDigits (c :: rest) =
    if c / 16 =? 15 then []
    else str (c / 16) ::
         (if c mod 16 =? 15 then [] else str (c mod 16) :: _bcdDigits rest).
Proof.
  cbn [_bcdDigits yield_vals]; rewrite nibble_hi, nibble_lo.
  destruct (c / 16 =? 15); [reflexivity|].
  destruct (c mod 16 =? 15); reflexivity.
Qed.

Lemma bcdDigits_until_terminator (chars : list N) :
  _bcdDigits chars = map str (until_terminator (nibbles chars)).
Proof.
  induction chars as [|c rest IH]; [reflexivity|].
  rewrite bcdDigits_cons; simpl.
  destruct (c / 16 =? 15); [reflexivity|]; simpl.
  destruct (c mod 16 =? 15); [reflexivity|]; simpl.
  rewrite IH; reflexivity.
Qed.

Lemma str_digit (v : N) : v <= 9 -> str v = [ascii_of_N (48 + v)].
Proof.
  intros Hv.
  assert (H : In v (map N.of_nat (seq 0 10))).
  { apply in_map_iff; exists (N.to_nat v); split; [lia|]. apply in_seq; lia. }
  simpl in H; repeat (destruct H as [<-|H]; [reflexivity|]); destruct H.
Qed.

(** ** [_add_checksum] *)

Lemma range_step2_SS (n : nat) :
  range_step2 (S (S n)) = 0%nat :: map (fun i => 2 + i)%nat (range_step2 n).
Proof.
  unfold range_step2.
  replace (S (S n) + 1)%nat with (S (S (n + 1))) by lia.
  cbn [Nat.div2 seq map]; f_equal.
  rewrite <- seq_shift, !map_map.
  apply map_ext; intros k; lia.
Qed.

Lemma mapM_map {A B C} (f : B -> option C) (g : A -> B) (l : list A) :
  mapM f (map g l) = mapM (fun a => f (g a)) l.
Proof. induction l as [|a l IH]; simpl; [|rewrite IH]; reflexivity. Qed.

Lemma mapM_ext {A B} (f g : A -> option B) (l : list A) :
  (forall a, f a = g a) -> mapM f l = mapM g l.
Proof.
  intros E; induction l as [|a l IH]; simpl; [|rewrite IH, E]; reflexivity.
Qed.

Lemma byte_values_cons2 (a b : ascii) (rest : pystr) :
  byte_values (a :: b :: rest) =
    match int_of 16 [a; b], byte_values rest with
    | Some v, Some vs => Some (v :: vs)
    | _, _ => None
    end.
Proof.
  unfold byte_values.
  cbn [length]; rewrite range_step2_SS; cbn [mapM].
  rewrite mapM_map.
  rewrite (mapM_ext _ (fun i => int_of 16 (slice i (i + 2) rest))).
  - reflexivity.
  - intros i; unfold slice.
    replace (2 + i + 2 - (2 + i))%nat with (i + 2 - i)%nat by lia.
    reflexivity.
Qed.

Lemma digit_val_lt (c : ascii) (d : N) : digit_val c = Some d -> d < 16.
Proof.
  unfold digit_val.
  repeat match goal with
         | |- context [if ?t then _ else _] =>
             let E := fresh "E" in
             destruct t eqn:E;
             [apply andb_true_iff in E; destruct E as [_ E];
              apply N.leb_le in E|]
         end; intros H; inversion H; lia.
Qed.

Lemma int_of_hex2 (a b : ascii) (x y : N) :
  digit_val a = Some x -> digit_val b = Some y ->
  int_of 16 [a; b] = Some (16 * x + y).
Proof.
  intros Ha Hb; cbn [int_of fold_left]; rewrite Ha, Hb.
  apply digit_val_lt, N.ltb_lt in Ha; apply digit_val_lt, N.ltb_lt in Hb.
  rewrite Ha, Hb; f_equal; lia.
Qed.

Lemma fold_left_add (l : list N) (a : N) :
  fold_left N.add l a = a + fold_left N.add l 0.
Proof.
  revert a; induction l as [|x l IH]; intros a; simpl; [lia|].
  rewrite IH, (IH x); lia.
Qed.

Lemma sum_cons (x : N) (l : list N) : sum (x :: l) = x + sum l.
Proof. unfold sum; simpl; apply fold_left_add. Qed.

Lemma sum_app (l1 l2 : list N) : sum (l1 ++ l2) = sum l1 + sum l2.
Proof.
  induction l1 as [|x l1 IH]; [reflexivity|].
  simpl app; rewrite !sum_cons, IH; lia.
Qed.

(** On an even-length string of hexadecimal digits the list comprehension
    and [a2b_hex] read the same bytes. *)
Lemma hex_string_body (h : pystr) :
  hex_string h ->
  exists body,
    a2b_hex h = Some body
    /\ byte_values h = Some (map Byte.to_N body)
    /\ length body = Nat.div2 (length h)
    /\ forall t, a2b_hex (h ++ t) = option_map (app body) (a2b_hex t).
Proof.
  unfold hex_string.
  induction h as [|a|a b h IH] using list_pair_ind; intros [Hev Hdig].
  - exists []; repeat split; intros t; cbn [app]; destruct (a2b_hex t); reflexivity.
  - discriminate.
  - cbn [forallb] in Hdig; apply andb_true_iff in Hdig as [Ha Hdig].
    apply andb_true_iff in Hdig as [Hb Hdig].
    destruct IH as (body & Hbody & Hvals & Hlen & Happ); [split; assumption|].
    unfold is_hex_digit in Ha, Hb.
    destruct (digit_val a) as [x|] eqn:Ea; [|discriminate].
    destruct (digit_val b) as [y|] eqn:Eb; [|discriminate].
    assert (Hx := digit_val_lt _ _ Ea); assert (Hy := digit_val_lt _ _ Eb).
    destruct (Byte.of_N (16 * x + y)) as [c|] eqn:Ec;
      [|apply Byte.of_N_None_iff in Ec; lia].
    exists (c :: body); repeat split.
    + cbn [a2b_hex]; rewrite Ea, Eb, Hbody, Ec; reflexivity.
    + rewrite byte_values_cons2, (int_of_hex2 _ _ _ _ Ea Eb), Hvals.
      cbn [map]; rewrite (Byte.to_of_N _ Ec); reflexivity.
    + cbn [length Nat.div2]; rewrite Hlen; reflexivity.
    + intros t; cbn [app a2b_hex]; rewrite Ea, Eb, Happ, Ec.
      destruct (a2b_hex t); reflexivity.
Qed.

Lemma N_below_In (n : N) (k : nat) :
  n < N.of_nat k -> In n (map N.of_nat (seq 0 k)).
Proof.
  intros H; apply in_map_iff; exists (N.to_nat n); split; [lia|].
  apply in_seq; lia.
Qed.

Lemma digit_val_char (d : N) : d < 16 -> digit_val (digit_char d) = Some d.
Proof.
  intros H; apply (N_below_In d 16) in H; simpl in H.
  repeat (destruct H as [<-|H]; [reflexivity|]); destruct H.
Qed.

Lemma slice_last_app {A} (s t : list A) : slice_last (length t) (s ++ t) = t.
Proof.
  unfold slice_last; rewrite length_app.
  replace (length s + length t - length t)%nat with (length s + 0)%nat by lia.
  rewrite skipn_app, Nat.add_0_r, skipn_all.
  replace (length s - length s)%nat with 0%nat by lia; reflexivity.
Qed.

Lemma zfill_wide (w : nat) (s : pystr) : (w <= length s)%nat -> zfill w s = s.
Proof.
  intros H; unfold zfill.
  replace (w - length s)%nat with 0%nat by lia; cbn [repeat app].
  destruct s as [|c s]; [reflexivity|].
  destruct (_ || _); reflexivity.
Qed.

Lemma size_nat_pos (n : N) : 0 < n -> exists k, N.size_nat n = S k.
Proof.
  destruct n as [|p]; [lia|]; intros _.
  destruct p; cbn; eauto.
Qed.

(** Above 255 the last two characters of [hex(cs)] are the two low
    hexadecimal digits of [cs]. *)
Lemma checksum_text_large (cs : N) :
  255 < cs ->
  checksum_text cs = [digit_char ((cs / 16) mod 16); digit_char (cs mod 16)].
Proof.
  intros H; unfold checksum_text.
  apply N.ltb_lt in H as Hb; rewrite Hb; clear Hb.
  destruct (size_nat_pos cs) as [k Hk]; [lia|].
  unfold hex, numeral; rewrite Hk; cbn [digits_rev].
  assert (H16 : 16 <= cs / 16) by (apply N.div_le_lower_bound; lia).
  replace (cs <? 16) with false by (symmetry; apply N.ltb_ge; lia).
  replace (cs / 16 <? 16) with false by (symmetry; apply N.ltb_ge; lia).
  cbn [rev]; rewrite <- !app_assoc, app_assoc.
  apply (slice_last_app _ [_; _]).
Qed.

Lemma checksum_text_small_all :
  forallb
    (fun cs =>
       match a2b_hex (zfill 2 (checksum_text cs)), Byte.of_N cs with
       | Some [c], Some c' => Byte.eqb c c'
       | _, _ => false
       end)
    (map N.of_nat (seq 0 256)) = true.
Proof. vm_compute; reflexivity. Qed.

(** The padded checksum text always converts to the one byte [cs mod 256]. *)
Lemma checksum_text_byte (cs : N) :
  exists c,
    Byte.of_N (cs mod 256) = Some c
    /\ a2b_hex (zfill 2 (checksum_text cs)) = Some [c].
Proof.
  destruct (N.ltb_spec 255 cs) as [Hbig|Hsmall].
  - rewrite checksum_text_large by assumption.
    rewrite zfill_wide by (cbn; lia).
    assert (Hhi : (cs / 16) mod 16 < 16) by (apply N.mod_upper_bound; lia).
    assert (Hlo : cs mod 16 < 16) by (apply N.mod_upper_bound; lia).
    cbn [a2b_hex]; rewrite !digit_val_char by assumption.
    change 256 with (16 * 16); rewrite N.Div0.mod_mul_r.
    replace (cs mod 16 + 16 * ((cs / 16) mod 16))
      with (16 * ((cs / 16) mod 16) + cs mod 16) by lia.
    destruct (Byte.of_N _) as [c|] eqn:Ec;
      [|apply Byte.of_N_None_iff in Ec; lia].
    exists c; split; reflexivity.
  - rewrite N.mod_small by lia.
    assert (Hin : In cs (map N.of_nat (seq 0 256))) by (apply N_below_In; lia).
    pose proof (proj1 (forallb_forall _ _) checksum_text_small_all cs Hin) as Hc.
    cbv beta in Hc.
    destruct (a2b_hex _) as [[|c [|? ?]]|]; try discriminate.
    destruct (Byte.of_N cs) as [c'|]; [|discriminate].
    apply Byte.byte_dec_bl in Hc; subst c'.
    exists c; split; reflexivity.
Qed.

(** On well-formed input the frame is the body followed by its checksum. *)
Lemma add_checksum_body (h : pystr) :
  hex_string h ->
  exists body c,
    a2b_hex h = Some body
    /\ length body = Nat.div2 (length h)
    /\ Byte.of_N (checksum body) = Some c
    /\ _add_checksum h = Ret (body ++ [c]).
Proof.
  intros Hh.
  destruct (hex_string_body h Hh) as (body & Hbody & Hvals & Hlen & Happ).
  destruct (checksum_text_byte (sum (map Byte.to_N body))) as (c & Hc & Htext).
  exists body, c; repeat split; try assumption.
  unfold _add_checksum; rewrite Hvals; cbv zeta.
  rewrite Happ, Htext; reflexivity.
Qed.

(** C1.  For every even-length string [h] of hexadecimal digits,
    [_add_checksum h] returns a byte sequence of length [len(h)/2 + 1] whose
    last byte is the sum of all the preceding bytes modulo 256, that is, the
    checksum recomputed over the frame without its last byte; the preceding
    bytes are the bytes that [h] spells. *)
Theorem add_checksum_frame (h : pystr) :
  hex_string h ->
  exists frame,
    _add_checksum h = Ret frame
    /\ length frame = (length h / 2 + 1)%nat
    /\ Byte.to_N (last frame x00) = sum (map Byte.to_N (removelast frame)) mod 256
    /\ Byte.to_N (last frame x00) = checksum (removelast frame)
    /\ a2b_hex h = Some (removelast frame).
Proof.
  intros Hh.
  destruct (add_checksum_body h Hh) as (body & c & Hbody & Hlen & Hc & Hframe).
  exists (body ++ [c]).
  rewrite removelast_last, last_last, length_app, Hlen, Nat.div2_div.
  apply Byte.to_of_N in Hc.
  repeat split; try assumption; reflexivity.
Qed.

Lemma add_checksum_frame_witness :
  hex_string (lit "00017041ff")
  /\ exists frame,
       _add_checksum (lit "00017041ff") = Ret frame
       /\ length frame = (length (lit "00017041ff") / 2 + 1)%nat
       /\ Byte.to_N (last frame x00)
          = sum (map Byte.to_N (removelast frame)) mod 256
       /\ Byte.to_N (last frame x00) = checksum (removelast frame)
       /\ a2b_hex (lit "00017041ff") = Some (removelast frame).
Proof.
  split; [split; reflexivity|].
  apply (add_checksum_frame (lit "00017041ff")); split; reflexivity.
Defined.

Example add_checksum_golden :
  _add_checksum (lit "00017041ff") = Ret [x00; x01; x70; x41; xff; xb1].
Proof. reflexivity. Qed.

Example add_checksum_reset : _add_checksum (lit "0018") = Ret [x00; x18; x18].
Proof. reflexivity. Qed.

Example add_checksum_odd : _add_checksum (lit "001") = Raise ValueError.
Proof. reflexivity. Qed.

Example add_checksum_text : _add_checksum (lit "0001HELLO!") = Raise ValueError.
Proof. reflexivity. Qed.

(** ** The numerals of [str] and [hex]

    The fuel that [numeral] gives to [digits_rev] is enough: reading the
    numeral back gives the number. *)

Lemma size_nat_bound (n : N) : n < 2 ^ N.of_nat (N.size_nat n).
Proof.
  destruct n as [|p]; [reflexivity|]; cbn [N.size_nat].
  induction p as [p IH|p IH|]; cbn [Pos.size_nat];
    rewrite ?Nat2N.inj_succ, ?N.pow_succ_r'; lia.
Qed.

Lemma digits_rev_value (base : N) (fuel : nat) (n : N) :
  2 <= base <= 16 -> n < 2 ^ N.of_nat fuel ->
  fold_right
    (fun c acc =>
       match acc, digit_val c with
       | Some a, Some d => if d <? base then Some (a * base + d) else None
       | _, _ => None
       end)
    (Some 0) (digits_rev base (S fuel) n) = Some n.
Proof.
  intros Hbase; revert n; induction fuel as [|fuel IH]; intros n Hn.
  - cbn [digits_rev]; change (2 ^ N.of_nat 0) with 1 in Hn.
    replace (n <? base) with true by (symmetry; apply N.ltb_lt; lia).
    cbn [fold_right]; rewrite digit_val_char by lia.
    replace (n <? base) with true by (symmetry; apply N.ltb_lt; lia).
    reflexivity.
  - remember (S fuel) as f eqn:Ef; cbn [digits_rev].
    destruct (N.ltb_spec n base) as [Hlt|Hge].
    + cbn [fold_right]; rewrite digit_val_char by lia.
      apply N.ltb_lt in Hlt; rewrite Hlt; reflexivity.
    + cbn [fold_right]; subst f; rewrite IH.
      * assert (Hm : n mod base < base) by (apply N.mod_upper_bound; lia).
        rewrite digit_val_char by lia.
        apply N.ltb_lt in Hm as Hm'; rewrite Hm'; f_equal.
        rewrite (N.div_mod n base) at 3 by lia; lia.
      * rewrite Nat2N.inj_succ, N.pow_succ_r' in Hn.
        apply N.Div0.div_lt_upper_bound.
        apply N.lt_le_trans with (2 * 2 ^ N.of_nat fuel); [exact Hn|].
        apply N.mul_le_mono_r; lia.
Qed.

Lemma numeral_value (base n : N) :
  2 <= base <= 16 -> int_of base (numeral base n) = Some n.
Proof.
  intros Hbase; unfold int_of, numeral.
  destruct (rev (digits_rev base (S (N.size_nat n)) n)) as [|c s] eqn:E.
  - apply (f_equal (@length ascii)) in E; rewrite length_rev in E.
    cbn [digits_rev] in E; destruct (n <? base); discriminate E.
  - rewrite <- E, <- fold_left_rev_right, rev_involutive.
    apply digits_rev_value; [exact Hbase | apply size_nat_bound].
Qed.

Lemma int_str (n : N) : int_of 10 (str n) = Some n.
Proof. apply numeral_value; lia. Qed.

(** ** The codec claims *)

(** C5, on the code.  The input [0000] begins with two zero bytes, yet
    [_remove_extra_byte] returns it unchanged instead of dropping its first
    byte: the guard compares [input_hex[:2]] with the empty slice
    [input_hex[2:2]]. *)
Theorem remove_extra_byte_keeps_0000 :
  _remove_extra_byte (lit "0000") = lit "0000"
  /\ _remove_extra_byte (lit "0000") <> lit "00"
  /\ _remove_extra_byte (lit "00001d001d") = lit "00001d001d".
Proof. repeat split; discriminate. Qed.

Lemma until_terminator_stops (pre post : list N) :
  ~ In 15 pre -> until_terminator (pre ++ 15 :: post) = pre.
Proof.
  induction pre as [|v pre IH]; intros Hpre; [reflexivity|].
  cbn [app until_terminator].
  destruct (N.eqb_spec v 15) as [->|_]; [exfalso; apply Hpre; left; reflexivity|].
  rewrite IH; [reflexivity|]; intros Hin; apply Hpre; right; exact Hin.
Qed.

Lemma until_terminator_all (vs : list N) :
  ~ In 15 vs -> until_terminator vs = vs.
Proof.
  induction vs as [|v vs IH]; intros Hvs; [reflexivity|].
  cbn [until_terminator].
  destruct (N.eqb_spec v 15) as [->|_]; [exfalso; apply Hvs; left; reflexivity|].
  rewrite IH; [reflexivity|]; intros Hin; apply Hvs; right; exact Hin.
Qed.

(** C2.  For every input, [_bcdDigits] yields the nibbles of the bytes in
    order, the high nibble of a byte before its low nibble, each as its
    decimal text (the digit character for a nibble from 0 to 9), and yields
    nothing from the first nibble equal to 0xF onward.  The bytes
    [0x12, 0x34, 0xFF] yield ['1','2','3','4'] and the empty input yields
    nothing. *)
Theorem bcdDigits_nibbles_in_order :
  (forall chars, _bcdDigits chars = map str (until_terminator (nibbles chars)))
  /\ map str [0; 1; 2; 3; 4; 5; 6; 7; 8; 9]
     = map (fun c => [c]) (lit "0123456789")
  /\ _bcdDigits [0x12; 0x34; 0xFF] = [lit "1"; lit "2"; lit "3"; lit "4"]
  /\ _bcdDigits [] = [].
Proof.
  split; [exact bcdDigits_until_terminator|].
  repeat split.
Qed.

(** C9, as stated, fails: the byte 0xA0 yields the two-character string
    ['10'] for its high nibble. *)
Lemma bcdDigits_two_characters :
  _bcdDigits [0xA0] = [lit "10"; lit "0"]
  /\ ~ Forall decimal_digit_char (_bcdDigits [0xA0]).
Proof.
  split; [reflexivity|].
  intros H; inversion H as [|s l Hs _]; subst.
  destruct Hs as (d & _ & Hd); discriminate Hd.
Qed.

(** C9, amended.  For every input whose nibbles before the first 0xF are all
    between 0 and 9, every element yielded by [_bcdDigits] is a single
    decimal-digit character. *)
Theorem bcdDigits_decimal_digits (chars : list N) :
  Forall (fun v => v <= 9) (until_terminator (nibbles chars)) ->
  Forall decimal_digit_char (_bcdDigits chars).
Proof.
  intros H; rewrite bcdDigits_until_terminator.
  apply Forall_map; revert H; apply Forall_impl; intros v Hv.
  exists v; split; [lia | apply str_digit; exact Hv].
Qed.

Lemma bcdDigits_decimal_digits_witness :
  Forall (fun v => v <= 9) (until_terminator (nibbles [0x12; 0x34; 0xFF]))
  /\ Forall decimal_digit_char (_bcdDigits [0x12; 0x34; 0xFF]).
Proof.
  assert (H : Forall (fun v => v <= 9)
                (until_terminator (nibbles [0x12; 0x34; 0xFF]))).
  { vm_compute; repeat constructor; discriminate. }
  split; [exact H | apply (bcdDigits_decimal_digits _ H)].
Defined.

(** ** The transport *)

Lemma bind_ret {A B} (m : IO A) (k : A -> IO B) (w w' : world) (a : A) :
  m w = (Ret a, w') -> bind m k w = k a w'.
Proof. intros H; unfold bind; rewrite H; reflexivity. Qed.

Lemma bind_raise {A B} (m : IO A) (k : A -> IO B) (w w' : world) (e : exn) :
  m w = (Raise e, w') -> bind m k w = (Raise e, w').
Proof. intros H; unfold bind; rewrite H; reflexivity. Qed.

Lemma reply_eqb_eq (r : reply) (expected : list byte) :
  reply_eqb r expected = true <-> r = RBytes expected.
Proof.
  destruct r as [|data]; cbn [reply_eqb].
  - split; discriminate.
  - rewrite bytes_eqb_eq; split; [intros ->; reflexivity | intros E; inversion E; reflexivity].
Qed.

Lemma reply_eqb_falsy (r : reply) (b : byte) (expected : list byte) :
  falsy r -> reply_eqb r (b :: expected) = false.
Proof. intros [-> | ->]; reflexivity. Qed.

Lemma truthy_falsy (r : reply) : falsy r -> truthy r = false.
Proof. intros [-> | ->]; reflexivity. Qed.

Ltac io_cbn := cbn -[firstn skipn utf8_encode].

Ltac send_unfold :=
  unfold _send_to_device, bind, socket_new, settimeout, try_except_timeout,
    connect, bind, log, ret, send_code, send_command, send_with, recv_ack,
    recv_reply, recv_with, close, take, bind, log; io_cbn.

(** Replace the outcome of a step by what the hypothesis [H] says it is. *)
Ltac outcome H := repeat (rewrite H; io_cbn).

Ltac trace_flat := repeat rewrite <- app_assoc; reflexivity.


(** ** [write_id_str] *)


Lemma add_checksum_returns (h : pystr) :
  hex_string h -> exists frame, _add_checksum h = Ret frame.
Proof.
  intros Hh; destruct (add_checksum_body h Hh) as (body & c & _ & _ & _ & E).
  eauto.
Qed.

Lemma rows_fit (row2 row3 : pystr) :
  (length row2 <= 20)%nat -> (length row3 <= 20)%nat ->
  (20 <? length row2)%nat || (20 <? length row3)%nat = false.
Proof.
  intros H2 H3; apply orb_false_iff; split; apply Nat.ltb_ge; assumption.
Qed.

(** C8.  When [row2] or [row3] is longer than 20 characters, [write_id_str]
    returns [False] and leaves the world as it found it: no socket is
    created, nothing is connected, sent or read. *)
Theorem write_id_str_long_rows (self : client) (which_row : Z)
    (row2 row3 : pystr) (timeout : Z) (w : world) :
  (20 < length row2)%nat \/ (20 < length row3)%nat ->
  write_id_str self which_row row2 row3 timeout w = (Ret false, w).
Proof.
  intros H; unfold write_id_str.
  replace ((20 <? length row2)%nat || (20 <? length row3)%nat) with true;
    [reflexivity|].
  symmetry; apply orb_true_iff.
  destruct H as [H | H]; [left | right]; apply Nat.ltb_lt; exact H.
Qed.

Lemma write_id_str_long_rows_witness :
  ((20 < length (lit "0123456789abcdef012345"))%nat
   \/ (20 < length (lit "00"))%nat)
  /\ write_id_str Sample.device 0 (lit "0123456789abcdef012345") (lit "00") 0
       (Sample.world_of (Sample.answering [x00; x01; x01]))
     = (Ret false, Sample.world_of (Sample.answering [x00; x01; x01])).
Proof.
  assert (H : (20 < length (lit "0123456789abcdef012345"))%nat
              \/ (20 < length (lit "00"))%nat) by (left; simpl; lia).
  split; [exact H | apply (write_id_str_long_rows _ _ _ _ _ _ H)].
Defined.

(** For a [which_row] other than 0, 2 and 3 nothing touches the sockets,
    whatever the rows hold. *)
Lemma write_id_str_unknown_row_no_io (self : client) (which_row : Z)
    (row2 row3 : pystr) (timeout : Z) (w : world) :
  which_row <> 0%Z -> which_row <> 2%Z -> which_row <> 3%Z ->
  snd (write_id_str self which_row row2 row3 timeout w) = w.
Proof.
  intros H0 H2 H3; unfold write_id_str.
  destruct (_ || _); [reflexivity|].
  unfold bind, lift.
  destruct (_add_checksum _); [|reflexivity].
  apply Z.eqb_neq in H0, H2, H3; rewrite H0, H2, H3; reflexivity.
Qed.




(** With [which_row = 3] the argument [row3] only takes part in the length
    test: the frame is built from [row2]. *)
Lemma write_id_str_row3_from_row2 (self : client) (row2 row3 row3' : pystr)
    (timeout : Z) (w : world) :
  (length row3 <= 20)%nat -> (length row3' <= 20)%nat ->
  write_id_str self 3 row2 row3 timeout w
  = write_id_str self 3 row2 row3' timeout w.
Proof.
  intros L3 L3'; unfold write_id_str.
  destruct (20 <? length row2)%nat eqn:E2; [reflexivity|].
  cbn [orb].
  apply Nat.ltb_ge in L3, L3'; rewrite L3, L3'; reflexivity.
Qed.

(** C7, on the code.  Asked to write row 3 with [row2 = "aa"] and
    [row3 = "bb"], the driver sends the frame of ["0002" + row2]
    (00 02 aa ac), not that of ["0002" + row3] (00 02 bb bd); with
    [which_row = 0] it is the frame of ["0002" + row3] that follows the
    frame of row 2. *)
Theorem write_id_str_row3_sends_row2 :
  trace (snd (write_id_str Sample.device 3 (lit "aa") (lit "bb") 0
                (Sample.world_of (Sample.answering [x00; x02; x02]))))
  = [ESocket 0; ESetTimeout 0 1; EConnect 0 (lit "192.168.0.10") 9000;
     ESend 0 [x31; x32; x33; x34]; ERecv 0 12;
     ESend 0 [x00; x02; xaa; xac]; ERecv 0 3; EClose 0]
  /\ _add_checksum (lit "0002" ++ lit "bb") = Ret [x00; x02; xbb; xbd]
  /\ _add_checksum (lit "0002" ++ lit "aa") = Ret [x00; x02; xaa; xac].
Proof. repeat split. Qed.

(** ** The boolean operations *)

Lemma if_bool_ret (b : bool) : (if b then ret true else ret false) = ret b.
Proof. destruct b; reflexivity. Qed.

(** C4.  Whatever [_send_to_device] returns, [reset] returns [True] exactly
    when that value is the three bytes 00 18 18 of its request, and
    [refresh_rx] returns [True] exactly when it is the four bytes
    00 1d 00 1d; any other returned value ([False], fewer bytes, other
    bytes) gives [False]. *)
Theorem boolean_success_exact_reply (self : client) (timeout : Z) :
  (forall (w w' : world) (r : reply),
     _send_to_device self [x00; x18; x18] 3 (effective_timeout self timeout) w
     = (Ret r, w') ->
     exists b, reset self timeout w = (Ret b, w')
               /\ (b = true <-> r = RBytes [x00; x18; x18]))
  /\ (forall (w w' : world) (r : reply),
        _send_to_device self [x00; x1d; x1d] 4 timeout w = (Ret r, w') ->
        exists b, refresh_rx self timeout w = (Ret b, w')
                  /\ (b = true <-> r = RBytes [x00; x1d; x00; x1d])).
Proof.
  split; intros w w' r Hsend.
  - exists (reply_eqb r [x00; x18; x18]); split; [|apply reply_eqb_eq].
    unfold reset; cbv zeta; rewrite (bind_ret _ _ _ _ _ Hsend), if_bool_ret.
    reflexivity.
  - exists (reply_eqb r [x00; x1d; x00; x1d]); split; [|apply reply_eqb_eq].
    unfold refresh_rx; cbv zeta; rewrite (bind_ret _ _ _ _ _ Hsend), if_bool_ret.
    reflexivity.
Qed.

Lemma boolean_success_exact_reply_witness :
  (_send_to_device Sample.device [x00; x18; x18] 3
     (effective_timeout Sample.device 0)
     (Sample.world_of (Sample.answering [x00; x18; x19]))
   = (Ret (RBytes [x00; x18; x19]),
      snd (_send_to_device Sample.device [x00; x18; x18] 3 1
             (Sample.world_of (Sample.answering [x00; x18; x19]))))
   /\ exists b,
        reset Sample.device 0
          (Sample.world_of (Sample.answering [x00; x18; x19]))
        = (Ret b,
           snd (_send_to_device Sample.device [x00; x18; x18] 3 1
                  (Sample.world_of (Sample.answering [x00; x18; x19]))))
        /\ (b = true <-> RBytes [x00; x18; x19] = RBytes [x00; x18; x18]))
  /\ (_send_to_device Sample.device [x00; x1d; x1d] 4 15
        (Sample.world_of (Sample.answering [x00; x1d; x00; x1d]))
      = (Ret (RBytes [x00; x1d; x00; x1d]),
         snd (_send_to_device Sample.device [x00; x1d; x1d] 4 15
                (Sample.world_of (Sample.answering [x00; x1d; x00; x1d]))))
      /\ exists b,
           refresh_rx Sample.device 15
             (Sample.world_of (Sample.answering [x00; x1d; x00; x1d]))
           = (Ret b,
              snd (_send_to_device Sample.device [x00; x1d; x1d] 4 15
                     (Sample.world_of (Sample.answering [x00; x1d; x00; x1d]))))
           /\ (b = true
               <-> RBytes [x00; x1d; x00; x1d] = RBytes [x00; x1d; x00; x1d])).
Proof.
  split; (split; [reflexivity|]).
  - apply (proj1 (boolean_success_exact_reply Sample.device 0)); reflexivity.
  - apply (proj2 (boolean_success_exact_reply Sample.device 15)); reflexivity.
Defined.

Example reset_echo :
  fst (reset Sample.device 0 (Sample.world_of (Sample.answering [x00; x18; x18])))
  = Ret true.
Proof. reflexivity. Qed.

Example reset_short_read :
  fst (reset Sample.device 0 (Sample.world_of (Sample.answering [x00; x18])))
  = Ret false.
Proof. reflexivity. Qed.

Example reset_unreachable :
  fst (reset Sample.device 0 (Sample.world_of Sample.unreachable)) = Ret false.
Proof. reflexivity. Qed.

Example refresh_rx_wrong_content :
  fst (refresh_rx Sample.device 15
         (Sample.world_of (Sample.answering [x00; x1d; x1d; x00])))
  = Ret false.
Proof. reflexivity. Qed.

(** ** [read_datetime] *)





Lemma read_datetime_unfold (self : client) (timeout : Z) (w w' : world)
    (r : reply) :
  _send_to_device self [x00; x0c; x0c] 10 (effective_timeout self timeout) w
  = (Ret r, w') ->
  read_datetime self timeout w = (datetime_of_reply r, w').
Proof.
  intros H; unfold read_datetime; cbv zeta.
  rewrite (bind_ret _ _ _ _ _ H); reflexivity.
Qed.





Example read_datetime_no_bytes :
  fst (read_datetime Sample.device 0 (Sample.world_of (Sample.answering [])))
  = Ret sentinel.
Proof. reflexivity. Qed.

(** ** Failures reaching the caller *)


(** Other ways out by an exception: a date field that is not UTF-8 text, a
    version field that is not ASCII text, a read that times out, a refused
    connection. *)
Example read_datetime_year_2080 :
  fst (read_datetime Sample.device 0
         (Sample.world_of
            (Sample.answering
               [x00; x0c; x05; x09; x80; x14; x30; x00; x00; x0c])))
  = Raise UnicodeDecodeError.
Proof. reflexivity. Qed.

Example read_rxfm_version_not_ascii :
  fst (read_rxfm_version Sample.device 1 1 0
         (Sample.world_of
            (Sample.answering
               [x00; x3d; x01; x00; x32; xff; x30; x30; x35; x00; x00])))
  = Raise UnicodeDecodeError.
Proof. reflexivity. Qed.

Example reset_read_times_out :
  fst (reset Sample.device 0
         (Sample.world_of
            {| on_connect := Connected; on_ack := Received [x4f; x4b];
               on_reply := RecvTimeout; on_close := None |}))
  = Raise socket_timeout.
Proof. reflexivity. Qed.

Example reset_connection_refused :
  fst (reset Sample.device 0
         (Sample.world_of
            {| on_connect := ConnectRefused; on_ack := RecvTimeout;
               on_reply := RecvTimeout; on_close := None |}))
  = Raise ConnectionRefusedError.
Proof. reflexivity. Qed.

Lemma Z_below_In (z : Z) (k : nat) :
  (0 <= z < Z.of_nat k)%Z -> In z (map Z.of_nat (seq 0 k)).
Proof.
  intros H; apply in_map_iff; exists (Z.to_nat z); split; [lia|].
  apply in_seq; lia.
Qed.


Lemma ascii_decode_ascii (bs : list byte) :
  Forall (fun b => Byte.to_N b < 128) bs ->
  ascii_decode bs = Some (map ascii_of_byte bs).
Proof.
  unfold ascii_decode; induction 1 as [|b bs Hb _ IH]; [reflexivity|].
  cbn [mapM map]; apply N.ltb_lt in Hb as ->; rewrite IH; reflexivity.
Qed.



Example no_acknowledgment_is_false :
  fst (refresh_rx Sample.device 15
         (Sample.world_of
            {| on_connect := Connected; on_ack := Received [];
               on_reply := Received [x00; x1d; x00; x1d];
               on_close := None |}))
  = Ret false.
Proof. reflexivity. Qed.

(** * Further properties of the driver *)

(** ** The codec *)

(** X1.  [_remove_extra_byte] returns every input unchanged, whatever it
    begins with; in particular it is idempotent. *)
Theorem remove_extra_byte_never_strips (input_hex : pystr) :
  _remove_extra_byte input_hex = input_hex
  /\ _remove_extra_byte (_remove_extra_byte input_hex)
     = _remove_extra_byte input_hex.
Proof. rewrite !remove_extra_byte_id; split; reflexivity. Qed.

Lemma a2b_hex_hex (s : pystr) (bs : list byte) :
  a2b_hex s = Some bs -> hex_string s /\ length s = (2 * length bs)%nat.
Proof.
  unfold hex_string; revert bs.
  induction s as [|a|a b s IH] using list_pair_ind; intros bs H.
  - injection H as <-; repeat split.
  - discriminate H.
  - cbn [a2b_hex] in H.
    destruct (digit_val a) as [x|] eqn:Ea; [|discriminate H].
    destruct (digit_val b) as [y|] eqn:Eb; [|discriminate H].
    destruct (a2b_hex s) as [bs'|]; [|discriminate H].
    destruct (Byte.of_N _) as [c|]; [|discriminate H].
    injection H as <-.
    destruct (IH bs' eq_refl) as [[Hev Hdig] Hlen].
    cbn [length forallb Nat.even]; unfold is_hex_digit at 1 2.
    rewrite Ea, Eb, Hdig, Hev, Hlen; repeat split; lia.
Qed.

Lemma add_checksum_outcome (h : pystr) :
  (exists frame, _add_checksum h = Ret frame)
  \/ _add_checksum h = Raise ValueError.
Proof.
  unfold _add_checksum.
  destruct (byte_values h); [|right; reflexivity].
  cbv zeta; destruct (a2b_hex _);
    [left; eexists; reflexivity | right; reflexivity].
Qed.

Lemma add_checksum_ret_hex (h : pystr) (frame : list byte) :
  _add_checksum h = Ret frame -> hex_string h.
Proof.
  unfold _add_checksum.
  destruct (byte_values h) as [vals|]; [|discriminate].
  cbv zeta.
  destruct (checksum_text_byte (sum vals)) as (c & _ & Htext).
  apply a2b_hex_hex in Htext as [_ Hlen].
  destruct (a2b_hex (h ++ _)) as [bs|] eqn:E; [|discriminate].
  intros _; apply a2b_hex_hex in E as [[Hev Hdig] _].
  rewrite length_app, Hlen, Nat.even_add in Hev; cbn in Hev.
  rewrite forallb_app in Hdig; apply andb_true_iff in Hdig as [Hdig _].
  split; [|exact Hdig].
  destruct (Nat.even (length h)); [reflexivity | discriminate Hev].
Qed.

Lemma add_checksum_raises (h : pystr) :
  ~ hex_string h -> _add_checksum h = Raise ValueError.
Proof.
  intros Hn; destruct (add_checksum_outcome h) as [[frame E] | E]; [|exact E].
  exfalso; apply Hn; exact (add_checksum_ret_hex h frame E).
Qed.

Lemma hex_string_dec (h : pystr) : hex_string h \/ ~ hex_string h.
Proof.
  unfold hex_string.
  destruct (Nat.even (length h)); [|right; intros [H _]; discriminate H].
  destruct (forallb is_hex_digit h); [left; split; reflexivity|].
  right; intros [_ H]; discriminate H.
Qed.

(** X2.  [_add_checksum] returns a frame exactly on the even-length strings
    of hexadecimal digits; on every other string (odd length, or a character
    that is not a hexadecimal digit) it raises [ValueError]. *)
Theorem add_checksum_domain (h : pystr) :
  (hex_string h /\ exists frame, _add_checksum h = Ret frame)
  \/ (~ hex_string h /\ _add_checksum h = Raise ValueError).
Proof.
  destruct (hex_string_dec h) as [H | H].
  - left; split; [exact H | apply add_checksum_returns; exact H].
  - right; split; [exact H | apply add_checksum_raises; exact H].
Qed.

Lemma nibbles_app (a b : list N) : nibbles (a ++ b) = nibbles a ++ nibbles b.
Proof. unfold nibbles; apply flat_map_app. Qed.

Lemma until_terminator_cut (a b : list N) :
  In 15 a -> until_terminator (a ++ b) = until_terminator a.
Proof.
  induction a as [|v a IH]; intros Hin; [destruct Hin|].
  cbn [app until_terminator].
  destruct (N.eqb_spec v 15) as [_|Hv]; [reflexivity|].
  destruct Hin as [E | Hin]; [congruence|].
  rewrite IH by exact Hin; reflexivity.
Qed.

Lemma until_terminator_app (a b : list N) :
  ~ In 15 a -> until_terminator (a ++ b) = a ++ until_terminator b.
Proof.
  induction a as [|v a IH]; intros Hin; [reflexivity|].
  cbn [app until_terminator].
  destruct (N.eqb_spec v 15) as [->|_]; [exfalso; apply Hin; left; reflexivity|].
  rewrite IH; [reflexivity|]; intros H; apply Hin; right; exact H.
Qed.

(** X3.  Once a nibble of the input is 0xF, what follows has no effect on
    what [_bcdDigits] yields. *)
Theorem bcdDigits_ignores_after_terminator (pre rest : list N) :
  In 15 (nibbles pre) -> _bcdDigits (pre ++ rest) = _bcdDigits pre.
Proof.
  intros H; rewrite !bcdDigits_until_terminator, nibbles_app.
  rewrite until_terminator_cut by exact H; reflexivity.
Qed.

Lemma bcdDigits_ignores_after_terminator_witness :
  In 15 (nibbles [0x12; 0x3F])
  /\ _bcdDigits ([0x12; 0x3F] ++ [0x45; 0x67]) = _bcdDigits [0x12; 0x3F].
Proof.
  assert (H : In 15 (nibbles [0x12; 0x3F])) by (vm_compute; tauto).
  split; [exact H | apply (bcdDigits_ignores_after_terminator _ _ H)].
Defined.

Lemma nibbles_length (chars : list N) :
  length (nibbles chars) = (2 * length chars)%nat.
Proof.
  induction chars as [|c chars IH]; [reflexivity|].
  unfold nibbles in *; cbn [flat_map app length]; rewrite IH; lia.
Qed.

Lemma until_terminator_length (vs : list N) :
  (length (until_terminator vs) <= length vs)%nat.
Proof.
  induction vs as [|v vs IH]; [reflexivity|].
  cbn [until_terminator]; destruct (v =? 15); cbn [length]; lia.
Qed.

Lemma bcdDigits_length_le (chars : list N) :
  (length (_bcdDigits chars) <= 2 * length chars)%nat.
Proof.
  rewrite bcdDigits_until_terminator, length_map.
  pose proof (until_terminator_length (nibbles chars)) as H.
  rewrite nibbles_length in H; exact H.
Qed.

(** X4.  On an input without a 0xF nibble [_bcdDigits] yields exactly two
    elements per byte and then goes on with the bytes that follow. *)
Theorem bcdDigits_without_terminator (chars more : list N) :
  ~ In 15 (nibbles chars) ->
  length (_bcdDigits chars) = (2 * length chars)%nat
  /\ _bcdDigits (chars ++ more) = _bcdDigits chars ++ _bcdDigits more.
Proof.
  intros H; rewrite !bcdDigits_until_terminator, nibbles_app.
  rewrite until_terminator_app, until_terminator_all by exact H.
  rewrite length_map, nibbles_length, map_app; split; reflexivity.
Qed.

Lemma bcdDigits_without_terminator_witness :
  ~ In 15 (nibbles [0x05; 0x09])
  /\ length (_bcdDigits [0x05; 0x09]) = (2 * length [0x05; 0x09]%N)%nat
  /\ _bcdDigits ([0x05; 0x09] ++ [0x2F; 0x30])
     = _bcdDigits [0x05; 0x09] ++ _bcdDigits [0x2F; 0x30].
Proof.
  assert (H : ~ In 15 (nibbles [0x05; 0x09])).
  { vm_compute; intros [E|[E|[E|[E|[]]]]]; discriminate E. }
  split; [exact H | apply (bcdDigits_without_terminator _ _ H)].
Defined.

(** X5.  On bytes, [_bcdDigits] yields at most two elements per byte, and
    every element is the decimal text of a value from 0 to 14: the text
    ['15'] is never yielded. *)
Theorem bcdDigits_range (chars : list N) :
  Forall (fun c => c < 256) chars ->
  (length (_bcdDigits chars) <= 2 * length chars)%nat
  /\ Forall (fun s => exists v, v <= 14 /\ s = str v) (_bcdDigits chars).
Proof.
  intros Hb; split; [apply bcdDigits_length_le|].
  induction Hb as [|c chars Hc Hb IH]; [constructor|].
  rewrite bcdDigits_cons.
  assert (Hhi : c / 16 < 16) by (apply N.Div0.div_lt_upper_bound; lia).
  assert (Hlo : c mod 16 < 16) by (apply N.mod_upper_bound; lia).
  destruct (N.eqb_spec (c / 16) 15) as [_|Nhi]; [constructor|].
  constructor; [exists (c / 16); split; [lia | reflexivity]|].
  destruct (N.eqb_spec (c mod 16) 15) as [_|Nlo]; [constructor|].
  constructor; [exists (c mod 16); split; [lia | reflexivity]|exact IH].
Qed.

Lemma bcdDigits_range_witness :
  Forall (fun c => c < 256) [0xA0; 0x1E; 0xF0]
  /\ (length (_bcdDigits [0xA0; 0x1E; 0xF0]%N)
      <= 2 * length [0xA0; 0x1E; 0xF0]%N)%nat
  /\ Forall (fun s => exists v, v <= 14 /\ s = str v)
       (_bcdDigits [0xA0; 0x1E; 0xF0]).
Proof.
  assert (H : Forall (fun c => c < 256) [0xA0; 0x1E; 0xF0])
    by (repeat constructor).
  split; [exact H | apply (bcdDigits_range _ H)].
Defined.

(** ** [_send_to_device] *)

(** X6.  When the connect times out, [_send_to_device] returns [False]
    after creating the socket, setting its timeout and trying to connect:
    nothing is sent or read, and the socket is not closed. *)
Theorem send_to_device_connect_timeout (self : client) (message : list byte)
    (response_size : nat) (conn_timeout : Z) (w : world) :
  on_connect (net w (opened w)) = ConnectTimeout ->
  _send_to_device self message response_size conn_timeout w
  = (Ret RFalse,
     {| net := net w; opened := S (opened w);
        trace := trace w ++ opening self (opened w) conn_timeout |}).
Proof.
  intros Hc; send_unfold; outcome Hc.
  unfold opening; trace_flat.
Qed.

Lemma send_to_device_connect_timeout_witness :
  on_connect (net (Sample.world_of Sample.unreachable)
                  (opened (Sample.world_of Sample.unreachable)))
  = ConnectTimeout
  /\ _send_to_device Sample.device [x00; x18; x18] 3 1
       (Sample.world_of Sample.unreachable)
     = (Ret RFalse,
        {| net := net (Sample.world_of Sample.unreachable);
           opened := 1;
           trace := [] ++ opening Sample.device 0 1 |}).
Proof.
  split; [reflexivity|].
  apply (send_to_device_connect_timeout Sample.device [x00; x18; x18] 3 1
           (Sample.world_of Sample.unreachable)); reflexivity.
Defined.

(** X7.  With an access code configured, when the read after the access
    code returns no bytes [_send_to_device] returns [False] right after the
    handshake: the command is never sent and the socket is not closed. *)
Theorem send_to_device_no_acknowledgment (self : client)
    (message : list byte) (response_size : nat) (conn_timeout : Z)
    (w : world) :
  on_connect (net w (opened w)) = Connected ->
  access_code self <> [] ->
  on_ack (net w (opened w)) = Received [] ->
  _send_to_device self message response_size conn_timeout w
  = (Ret RFalse,
     {| net := net w; opened := S (opened w);
        trace := trace w ++ opening self (opened w) conn_timeout
                 ++ [ESend (opened w) (utf8_encode (access_code self));
                     ERecv (opened w) 12] |}).
Proof.
  intros Hc Hcode Hack; send_unfold; outcome Hc.
  destruct (access_code self) as [|c code]; [contradiction|]; io_cbn.
  outcome Hack.
  unfold opening; trace_flat.
Qed.

Lemma send_to_device_no_acknowledgment_witness :
  on_connect (net (Sample.world_of Scenario.silent) 0) = Connected
  /\ access_code Sample.device <> []
  /\ on_ack (net (Sample.world_of Scenario.silent) 0) = Received []
  /\ _send_to_device Sample.device [x00; x18; x18] 3 1
       (Sample.world_of Scenario.silent)
     = (Ret RFalse,
        {| net := net (Sample.world_of Scenario.silent);
           opened := 1;
           trace := [] ++ opening Sample.device 0 1
                    ++ [ESend 0 (utf8_encode (access_code Sample.device));
                        ERecv 0 12] |}).
Proof.
  assert (Hcode : access_code Sample.device <> []) by discriminate.
  split; [reflexivity|]; split; [exact Hcode|]; split; [reflexivity|].
  apply (send_to_device_no_acknowledgment Sample.device [x00; x18; x18] 3 1
           (Sample.world_of Scenario.silent) eq_refl Hcode eq_refl).
Defined.

(** X8.  When the connection is made, the handshake passes, [data] reaches
    the socket before the reply is read and [close] returns,
    [_send_to_device] creates one socket, sends the access code (if any)
    before the command, closes the socket last, and returns what one read of
    [response_size] bytes gives: the first [response_size] bytes of the
    stream made of what the handshake read left behind (the bytes of the
    acknowledgment beyond 12) followed by [data]. *)
Theorem send_to_device_exchange (self : client) (message : list byte)
    (response_size : nat) (conn_timeout : Z) (w : world) (data : list byte) :
  on_connect (net w (opened w)) = Connected ->
  handshake_passes self (net w (opened w)) ->
  on_reply (net w (opened w)) = Received data ->
  on_close (net w (opened w)) = None ->
  _send_to_device self message response_size conn_timeout w
  = (Ret (RBytes (firstn response_size
                    (surplus self (net w (opened w)) ++ data))),
     {| net := net w; opened := S (opened w);
        trace := trace w ++ opening self (opened w) conn_timeout
                 ++ handshake self (opened w)
                 ++ [ESend (opened w) message;
                     ERecv (opened w) response_size;
                     EClose (opened w)] |})
  /\ (length (firstn response_size
                (surplus self (net w (opened w)) ++ data))
      <= response_size)%nat.
Proof.
  intros Hc Hhand Hreply Hclose; split; [|apply firstn_le_length].
  send_unfold; outcome Hc; unfold handshake, opening, surplus.
  unfold handshake_passes in Hhand.
  destruct (access_code self) as [|c code]; io_cbn.
  - outcome Hreply; outcome Hclose; trace_flat.
  - destruct Hhand as [Hcode | (b & ack & Hack)]; [discriminate Hcode|].
    outcome Hack.
    change (firstn 12 (b :: ack)) with (b :: firstn 11 ack); io_cbn.
    outcome Hreply; outcome Hclose; trace_flat.
Qed.

Lemma send_to_device_exchange_witness :
  on_connect (net (Sample.world_of Scenario.talkative) 0) = Connected
  /\ handshake_passes Sample.device (net (Sample.world_of Scenario.talkative) 0)
  /\ on_reply (net (Sample.world_of Scenario.talkative) 0) = Received []
  /\ on_close (net (Sample.world_of Scenario.talkative) 0) = None
  /\ fst (_send_to_device Sample.device [x00; x18; x18] 3 1
            (Sample.world_of Scenario.talkative))
     = Ret (RBytes [x45; x44]).
Proof.
  assert (Hh : handshake_passes Sample.device
                 (net (Sample.world_of Scenario.talkative) 0))
    by (right; eexists _, _; reflexivity).
  split; [reflexivity|]; split; [exact Hh|].
  split; [reflexivity|]; split; [reflexivity|].
  rewrite (proj1 (send_to_device_exchange Sample.device [x00; x18; x18] 3 1
                    (Sample.world_of Scenario.talkative) []
                    eq_refl Hh eq_refl eq_refl)).
  reflexivity.
Defined.

(** X9.  [_send_to_device] does not catch a refused connection
    ([ConnectionRefusedError]) nor a read that times out with nothing
    waiting on the socket, after the access code or after the command
    ([socket.timeout]): it raises them. *)
Theorem send_to_device_uncaught (self : client) (message : list byte)
    (response_size : nat) (conn_timeout : Z) (w : world) (e : exn) :
  transport_raises self (net w (opened w)) e ->
  fst (_send_to_device self message response_size conn_timeout w) = Raise e.
Proof.
  send_unfold.
  intros [Hc | Hc Hcode Ha | Hc Hhand Hsur Hr]; outcome Hc.
  - reflexivity.
  - destruct (access_code self) as [|c code]; [contradiction|]; io_cbn.
    outcome Ha; reflexivity.
  - unfold surplus in Hsur; unfold handshake_passes in Hhand.
    destruct (access_code self) as [|c code]; io_cbn.
    + outcome Hr; reflexivity.
    + destruct Hhand as [Hcode | (b & ack & Ha)]; [discriminate Hcode|].
      rewrite Ha in Hsur; outcome Ha.
      change (firstn 12 (b :: ack)) with (b :: firstn 11 ack); io_cbn.
      rewrite Hsur; io_cbn; outcome Hr; reflexivity.
Qed.

Lemma send_to_device_uncaught_witness :
  transport_raises Sample.device
    (net (Sample.world_of Scenario.stalling)
         (opened (Sample.world_of Scenario.stalling))) socket_timeout
  /\ fst (_send_to_device Sample.device [x00; x18; x18] 3 1
            (Sample.world_of Scenario.stalling))
     = Raise socket_timeout.
Proof.
  assert (H : transport_raises Sample.device
                (net (Sample.world_of Scenario.stalling)
                     (opened (Sample.world_of Scenario.stalling)))
                socket_timeout).
  { apply reply_timed_out;
      [reflexivity | right; eexists _, _; reflexivity
       | reflexivity | reflexivity]. }
  split; [exact H|].
  apply (send_to_device_uncaught Sample.device [x00; x18; x18] 3 1 _ _ H).
Defined.

Example send_to_device_negative_timeout :
  fst (_send_to_device Sample.device [x00; x18; x18] 3 (-1)
         (Sample.world_of
            {| on_connect := SetTimeoutRaises ValueError;
               on_ack := RecvTimeout; on_reply := RecvTimeout;
               on_close := None |}))
  = Raise ValueError.
Proof. reflexivity. Qed.

Example send_to_device_nonblocking_connect :
  fst (_send_to_device Sample.device [x00; x18; x18] 3 0
         (Sample.world_of
            {| on_connect := ConnectRaises BlockingIOError;
               on_ack := RecvTimeout; on_reply := RecvTimeout;
               on_close := None |}))
  = Raise BlockingIOError.
Proof. reflexivity. Qed.

Example send_to_device_reset_by_peer :
  fst (_send_to_device Sample.device [x00; x18; x18] 3 1
         (Sample.world_of
            {| on_connect := Connected; on_ack := Received [x4f; x4b];
               on_reply := SendRaises OSError; on_close := None |}))
  = Raise OSError.
Proof. reflexivity. Qed.

(** ** [write_id_str] and [write_datetime] *)

Lemma lift_bind {A B} (r : res A) (k : A -> IO B) (w : world) (a : A) :
  r = Ret a -> bind (lift r) k w = k a w.
Proof. intros ->; reflexivity. Qed.

(** X10.  Writing a single row succeeds exactly on the echo of its command:
    with [which_row = 2] the frame of ["0001" + row2] is sent and the result
    is [True] iff the reply is 00 01 01; with [which_row = 3] the frame of
    ["0002" + row2] is sent and the result is [True] iff the reply is
    00 02 02. *)
Theorem write_id_str_single_row (self : client) (row2 row3 : pystr)
    (timeout : Z) :
  (length row2 <= 20)%nat -> (length row3 <= 20)%nat ->
  (forall frame w w' r,
     _add_checksum (lit "0001" ++ row2) = Ret frame ->
     _send_to_device self frame 3 (effective_timeout self timeout) w
     = (Ret r, w') ->
     exists b, write_id_str self 2 row2 row3 timeout w = (Ret b, w')
               /\ (b = true <-> r = RBytes [x00; x01; x01]))
  /\ (forall frame2 frame w w' r,
        _add_checksum (lit "0001" ++ row2) = Ret frame2 ->
        _add_checksum (lit "0002" ++ row2) = Ret frame ->
        _send_to_device self frame 3 (effective_timeout self timeout) w
        = (Ret r, w') ->
        exists b, write_id_str self 3 row2 row3 timeout w = (Ret b, w')
                  /\ (b = true <-> r = RBytes [x00; x02; x02])).
Proof.
  intros L2 L3; split.
  - intros frame w w' r Hframe Hsend.
    exists (reply_eqb r [x00; x01; x01]); split; [|apply reply_eqb_eq].
    unfold write_id_str; rewrite rows_fit by assumption; cbv zeta.
    rewrite (lift_bind _ _ _ _ Hframe); cbn [Z.eqb Pos.eqb].
    rewrite (bind_ret _ _ _ _ _ Hsend), if_bool_ret; reflexivity.
  - intros frame2 frame w w' r Hframe2 Hframe Hsend.
    exists (reply_eqb r [x00; x02; x02]); split; [|apply reply_eqb_eq].
    unfold write_id_str; rewrite rows_fit by assumption; cbv zeta.
    rewrite (lift_bind _ _ _ _ Hframe2); cbn [Z.eqb Pos.eqb].
    rewrite (lift_bind _ _ _ _ Hframe).
    rewrite (bind_ret _ _ _ _ _ Hsend), if_bool_ret; reflexivity.
Qed.

Lemma write_id_str_single_row_witness :
  (length (lit "4142") <= 20)%nat /\ (length (lit "") <= 20)%nat
  /\ fst (write_id_str Sample.device 2 (lit "4142") (lit "") 0
            (Sample.world_of (Sample.answering [x00; x01; x01])))
     = Ret true
  /\ fst (write_id_str Sample.device 3 (lit "4142") (lit "") 0
            (Sample.world_of (Sample.answering [x00; x02; x03])))
     = Ret false.
Proof.
  assert (L2 : (length (lit "4142") <= 20)%nat) by (simpl; lia).
  assert (L3 : (length (lit "") <= 20)%nat) by (simpl; lia).
  split; [exact L2|]; split; [exact L3|].
  destruct (write_id_str_single_row Sample.device (lit "4142") (lit "") 0 L2 L3)
    as [H2 H3].
  split.
  - destruct (H2 _ (Sample.world_of (Sample.answering [x00; x01; x01])) _ _
                eq_refl eq_refl) as (b & E & Hb).
    rewrite E; cbn [fst]; f_equal; apply Hb; reflexivity.
  - destruct (H3 _ _ (Sample.world_of (Sample.answering [x00; x02; x03])) _ _
                eq_refl eq_refl eq_refl) as (b & E & Hb).
    rewrite E; cbn [fst]; f_equal.
    destruct b; [|reflexivity].
    destruct Hb as [Hb _]; discriminate (Hb eq_refl).
Defined.

(** X11.  Writing both rows ([which_row = 0]) sends row 2 first.  If its
    reply is not the echo 00 01 01 the result is [False] and row 3 is never
    attempted: the world is the one left by the first exchange.  If it is,
    the frame of ["0002" + row3] is sent on a second socket and the result
    is [True] iff that reply is 00 02 02. *)
Theorem write_id_str_both_rows (self : client) (row2 row3 : pystr)
    (timeout : Z) (frame2 frame3 : list byte) (w w1 : world) (r2 : reply) :
  (length row2 <= 20)%nat -> (length row3 <= 20)%nat ->
  _add_checksum (lit "0001" ++ row2) = Ret frame2 ->
  _add_checksum (lit "0002" ++ row3) = Ret frame3 ->
  _send_to_device self frame2 3 (effective_timeout self timeout) w
  = (Ret r2, w1) ->
  (r2 <> RBytes [x00; x01; x01] ->
   write_id_str self 0 row2 row3 timeout w = (Ret false, w1))
  /\ (r2 = RBytes [x00; x01; x01] ->
      forall r3 w2,
        _send_to_device self frame3 3 (effective_timeout self timeout) w1
        = (Ret r3, w2) ->
        exists b, write_id_str self 0 row2 row3 timeout w = (Ret b, w2)
                  /\ (b = true <-> r3 = RBytes [x00; x02; x02])).
Proof.
  intros L2 L3 Hframe2 Hframe3 Hsend.
  assert (Hstart :
            write_id_str self 0 row2 row3 timeout w
            = (if reply_eqb r2 [x00; x01; x01]
               then bind (_send_to_device self frame3 3
                            (effective_timeout self timeout))
                         (fun r3 => if reply_eqb r3 [x00; x02; x02]
                                    then ret true else ret false)
               else ret false) w1).
  { unfold write_id_str; rewrite rows_fit by assumption; cbv zeta.
    rewrite (lift_bind _ _ _ _ Hframe2); cbn [Z.eqb Pos.eqb].
    rewrite (lift_bind _ _ _ _ Hframe3).
    rewrite (bind_ret _ _ _ _ _ Hsend); reflexivity. }
  rewrite Hstart; split.
  - intros Hr2.
    destruct (reply_eqb r2 [x00; x01; x01]) eqn:E; [|reflexivity].
    apply reply_eqb_eq in E; contradiction.
  - intros -> r3 w2 Hsend3.
    exists (reply_eqb r3 [x00; x02; x02]); split; [|apply reply_eqb_eq].
    rewrite (proj2 (reply_eqb_eq (RBytes [x00; x01; x01]) [x00; x01; x01])
               eq_refl).
    rewrite (bind_ret _ _ _ _ _ Hsend3), if_bool_ret; reflexivity.
Qed.

Lemma write_id_str_both_rows_witness :
  (length (lit "4142") <= 20)%nat /\ (length (lit "4344") <= 20)%nat
  /\ write_id_str Sample.device 0 (lit "4142") (lit "4344") 0
       (Sample.world_of (Sample.answering [x00; x01; x00]))
     = (Ret false,
        snd (_send_to_device Sample.device [x00; x01; x41; x42; x84] 3 1
               (Sample.world_of (Sample.answering [x00; x01; x00]))))
  /\ exists b,
       write_id_str Sample.device 0 (lit "4142") (lit "4344") 0
         (Scenario.world_first (Sample.answering [x00; x01; x01])
                               (Sample.answering [x00; x02; x02]))
       = (Ret b,
          snd (_send_to_device Sample.device [x00; x02; x43; x44; x89] 3 1
                 (snd (_send_to_device Sample.device
                         [x00; x01; x41; x42; x84] 3 1
                         (Scenario.world_first
                            (Sample.answering [x00; x01; x01])
                            (Sample.answering [x00; x02; x02]))))))
       /\ (b = true <-> RBytes [x00; x02; x02] = RBytes [x00; x02; x02]).
Proof.
  assert (L2 : (length (lit "4142") <= 20)%nat) by (simpl; lia).
  assert (L3 : (length (lit "4344") <= 20)%nat) by (simpl; lia).
  assert (F2 : _add_checksum (lit "0001" ++ lit "4142")
               = Ret [x00; x01; x41; x42; x84]) by reflexivity.
  assert (F3 : _add_checksum (lit "0002" ++ lit "4344")
               = Ret [x00; x02; x43; x44; x89]) by reflexivity.
  split; [exact L2|]; split; [exact L3|]; split.
  - apply (proj1 (write_id_str_both_rows Sample.device (lit "4142")
                    (lit "4344") 0 [x00; x01; x41; x42; x84]
                    [x00; x02; x43; x44; x89]
                    (Sample.world_of (Sample.answering [x00; x01; x00]))
                    (snd (_send_to_device Sample.device
                            [x00; x01; x41; x42; x84] 3 1
                            (Sample.world_of
                               (Sample.answering [x00; x01; x00]))))
                    (RBytes [x00; x01; x00])
                    L2 L3 F2 F3 eq_refl)).
    discriminate.
  - apply (proj2 (write_id_str_both_rows Sample.device (lit "4142")
                    (lit "4344") 0 [x00; x01; x41; x42; x84]
                    [x00; x02; x43; x44; x89]
                    (Scenario.world_first
                       (Sample.answering [x00; x01; x01])
                       (Sample.answering [x00; x02; x02]))
                    (snd (_send_to_device Sample.device
                            [x00; x01; x41; x42; x84] 3 1
                            (Scenario.world_first
                               (Sample.answering [x00; x01; x01])
                               (Sample.answering [x00; x02; x02]))))
                    (RBytes [x00; x01; x01])
                    L2 L3 F2 F3 eq_refl) eq_refl (RBytes [x00; x02; x02]));
      reflexivity.
Defined.

Lemma hex_string_prefix (a b : pystr) :
  hex_string a -> hex_string (a ++ b) -> hex_string b.
Proof.
  unfold hex_string; intros [Ha Da] [Hab Dab]; split.
  - rewrite length_app, Nat.even_add, Ha in Hab.
    destruct (Nat.even (length b)); [reflexivity | discriminate Hab].
  - rewrite forallb_app, Da in Dab; exact Dab.
Qed.

(** X12.  When [row2] (of at most 20 characters, like [row3]) is not an
    even-length string of hexadecimal digits, [write_id_str] raises
    [ValueError] for every [which_row], before any socket is created. *)
Theorem write_id_str_text_row_raises (self : client) (which_row : Z)
    (row2 row3 : pystr) (timeout : Z) (w : world) :
  (length row2 <= 20)%nat -> (length row3 <= 20)%nat ->
  ~ hex_string row2 ->
  write_id_str self which_row row2 row3 timeout w = (Raise ValueError, w).
Proof.
  intros L2 L3 Hn; unfold write_id_str.
  rewrite rows_fit by assumption; cbv zeta.
  rewrite add_checksum_raises; [reflexivity|].
  intros H; apply Hn.
  apply (hex_string_prefix (lit "0001")); [split; reflexivity | exact H].
Qed.

Lemma write_id_str_text_row_raises_witness :
  (length (lit "HELLO") <= 20)%nat /\ (length (lit "") <= 20)%nat
  /\ ~ hex_string (lit "HELLO")
  /\ write_id_str Sample.device 2 (lit "HELLO") (lit "") 0
       (Sample.world_of (Sample.answering [x00; x01; x01]))
     = (Raise ValueError, Sample.world_of (Sample.answering [x00; x01; x01])).
Proof.
  assert (L2 : (length (lit "HELLO") <= 20)%nat) by (simpl; lia).
  assert (L3 : (length (lit "") <= 20)%nat) by (simpl; lia).
  assert (Hn : ~ hex_string (lit "HELLO")) by (intros [H _]; discriminate H).
  split; [exact L2|]; split; [exact L3|]; split; [exact Hn|].
  apply (write_id_str_text_row_raises _ _ _ _ _ _ L2 L3 Hn).
Defined.

(** X13.  [write_datetime] sends the two bytes 00 0b, whatever the date,
    and returns [True] exactly when the reply is 00 0b 0b. *)
Theorem write_datetime_echo (self : client) (timeout : Z) (w w' : world)
    (r : reply) :
  _send_to_device self [x00; x0b] 3 (effective_timeout self timeout) w
  = (Ret r, w') ->
  exists b, write_datetime self timeout w = (Ret b, w')
            /\ (b = true <-> r = RBytes [x00; x0b; x0b]).
Proof.
  intros Hsend.
  exists (reply_eqb r [x00; x0b; x0b]); split; [|apply reply_eqb_eq].
  unfold write_datetime; cbv zeta.
  rewrite (bind_ret _ _ _ _ _ Hsend), if_bool_ret; reflexivity.
Qed.

Lemma write_datetime_echo_witness :
  _send_to_device Sample.device [x00; x0b] 3
    (effective_timeout Sample.device 0)
    (Sample.world_of (Sample.answering [x00; x0b; x0b]))
  = (Ret (RBytes [x00; x0b; x0b]),
     snd (_send_to_device Sample.device [x00; x0b] 3 1
            (Sample.world_of (Sample.answering [x00; x0b; x0b]))))
  /\ exists b,
       write_datetime Sample.device 0
         (Sample.world_of (Sample.answering [x00; x0b; x0b]))
       = (Ret b,
          snd (_send_to_device Sample.device [x00; x0b] 3 1
                 (Sample.world_of (Sample.answering [x00; x0b; x0b]))))
       /\ (b = true <-> RBytes [x00; x0b; x0b] = RBytes [x00; x0b; x0b]).
Proof.
  split; [reflexivity|].
  apply (write_datetime_echo Sample.device 0); reflexivity.
Defined.

(** ** [read_datetime], every date *)

Lemma utf8_decode_ascii (bs : list N) :
  Forall (fun b => b < 128) bs -> utf8_decode bs = Some bs.
Proof.
  induction 1 as [|b bs Hb _ IH]; [reflexivity|].
  cbn [utf8_decode]; apply N.ltb_lt in Hb; rewrite Hb, IH; reflexivity.
Qed.

Lemma utf8_decode_continuation_first (b : N) (rest : list N) :
  128 <= b <= 191 -> utf8_decode (b :: rest) = None.
Proof.
  intros Hb; cbn [utf8_decode]; unfold in_range.
  replace (b <? 128) with false by (symmetry; apply N.ltb_ge; lia).
  replace (b <=? 223) with true by (symmetry; apply N.leb_le; lia).
  replace (194 <=? b) with false by (symmetry; apply N.leb_gt; lia).
  replace (224 <=? b) with false by (symmetry; apply N.leb_gt; lia).
  replace (240 <=? b) with false by (symmetry; apply N.leb_gt; lia).
  reflexivity.
Qed.

Lemma utf8_decode_length (n : nat) (bs cs : list N) :
  (length bs <= n)%nat -> utf8_decode bs = Some cs ->
  (length cs <= length bs)%nat.
Proof.
  revert bs cs; induction n as [|n IH]; intros bs cs Hlen H.
  - destruct bs; [injection H as <-; reflexivity | cbn in Hlen; lia].
  - destruct bs as [|b0 r0]; [injection H as <-; reflexivity|].
    cbn [utf8_decode] in H; cbn [length] in Hlen.
    assert (Hstep : forall r cs',
               (length r <= length r0)%nat ->
               option_map (cons cs') (utf8_decode r) = Some cs ->
               (length cs <= S (length r0))%nat).
    { intros r c' Hr Hd.
      destruct (utf8_decode r) as [cs'|] eqn:E; [|discriminate Hd].
      injection Hd as <-; apply IH in E; [cbn [length]; lia | lia]. }
    cbn [length].
    destruct (b0 <? 128); [apply (Hstep r0 b0); [lia | exact H]|].
    destruct (in_range 194 223 b0).
    { destruct r0 as [|b1 r1]; [discriminate H|].
      destruct (is_cont b1); [|discriminate H].
      eapply (Hstep r1); [cbn [length]; lia | exact H]. }
    destruct (in_range 224 239 b0).
    { destruct r0 as [|b1 [|b2 r2]]; try discriminate H.
      destruct (_ && _); [|discriminate H].
      eapply (Hstep r2); [cbn [length]; lia | exact H]. }
    destruct (in_range 240 244 b0); [|discriminate H].
    destruct r0 as [|b1 [|b2 [|b3 r3]]]; try discriminate H.
    destruct (_ && _); [|discriminate H].
    eapply (Hstep r3); [cbn [length]; lia | exact H].
Qed.

Lemma str_digit_char (v : N) : v <= 9 -> str v = [digit_char v].
Proof.
  intros Hv; assert (H : In v (map N.of_nat (seq 0 10)))
    by (apply N_below_In; lia).
  simpl in H; repeat (destruct H as [<-|H]; [reflexivity|]); destruct H.
Qed.

Lemma bcd_nibbles (n : N) :
  n < 100 -> bcd n / 16 = n / 10 /\ bcd n mod 16 = n mod 10.
Proof.
  intros Hn; unfold bcd.
  assert (Hm : n mod 10 < 10) by (apply N.mod_upper_bound; lia).
  split; [symmetry; apply (N.div_unique _ 16 _ (n mod 10)); lia|].
  symmetry; apply (N.mod_unique _ 16 (n / 10)); lia.
Qed.

Lemma bcd_decode (n : N) (rest : list N) :
  n < 100 ->
  _bcdDigits (bcd n :: rest)
  = [digit_char (n / 10)] :: [digit_char (n mod 10)] :: _bcdDigits rest.
Proof.
  intros Hn; rewrite bcdDigits_cons.
  destruct (bcd_nibbles n Hn) as [-> ->].
  assert (Hhi : n / 10 < 10) by (apply N.Div0.div_lt_upper_bound; lia).
  assert (Hlo : n mod 10 < 10) by (apply N.mod_upper_bound; lia).
  replace (n / 10 =? 15) with false by (symmetry; apply N.eqb_neq; lia).
  replace (n mod 10 =? 15) with false by (symmetry; apply N.eqb_neq; lia).
  rewrite !str_digit_char by lia; reflexivity.
Qed.

Lemma int_two_digits (n : N) :
  n < 100 -> int_of 10 [digit_char (n / 10); digit_char (n mod 10)] = Some n.
Proof.
  intros Hn.
  assert (Hhi : n / 10 < 10) by (apply N.Div0.div_lt_upper_bound; lia).
  assert (Hlo : n mod 10 < 10) by (apply N.mod_upper_bound; lia).
  cbn [int_of fold_left]; rewrite !digit_val_char by lia.
  apply N.ltb_lt in Hhi as ->; apply N.ltb_lt in Hlo as ->.
  f_equal; rewrite (N.div_mod n 10) at 3 by lia; lia.
Qed.

Lemma int_year (n : N) :
  n < 100 ->
  int_of 10 (lit "20" ++ [digit_char (n / 10); digit_char (n mod 10)])
  = Some (2000 + n).
Proof.
  intros Hn.
  assert (Hhi : n / 10 < 10) by (apply N.Div0.div_lt_upper_bound; lia).
  assert (Hlo : n mod 10 < 10) by (apply N.mod_upper_bound; lia).
  cbn [lit String.list_ascii_of_string app int_of fold_left].
  change (digit_val "2") with (Some 2); change (digit_val "0") with (Some 0).
  rewrite !digit_val_char by lia.
  apply N.ltb_lt in Hhi as ->; apply N.ltb_lt in Hlo as ->.
  change (2 <? 10) with true; change (0 <? 10) with true; cbv beta iota.
  f_equal; pose proof (N.div_mod n 10); lia.
Qed.

(** X14.  For every reply whose bytes 2..8 pack six two-digit fields in BCD,
    each below 80, [read_datetime] gives to [datetime] the year 2000 plus
    the third field, then the second and first fields as month and day, and
    the last three as hour, minute and second; it returns that timestamp,
    or raises [ValueError] when the fields are not a date and time. *)
Theorem read_datetime_bcd (self : client) (timeout : Z) (w w' : world)
    (data : list byte) (dd mo yy hh mi ss : N) :
  _send_to_device self [x00; x0c; x0c] 10 (effective_timeout self timeout) w
  = (Ret (RBytes data), w') ->
  map Byte.to_N (slice 2 8 data) = map bcd [dd; mo; yy; hh; mi; ss] ->
  Forall (fun n => n < 80) [dd; mo; yy; hh; mi; ss] ->
  read_datetime self timeout w
  = (new_datetime (2000 + yy) mo dd hh mi ss, w').
Proof.
  intros Hsend Hmap Hlt.
  rewrite (read_datetime_unfold _ _ _ _ _ Hsend); f_equal.
  destruct data as [|b data]; [discriminate Hmap|].
  unfold datetime_of_reply; rewrite Hmap.
  repeat match goal with
         | H : Forall _ (_ :: _) |- _ => inversion_clear H
         end.
  rewrite utf8_decode_ascii.
  2:{ repeat constructor; unfold bcd;
      match goal with
      | |- 16 * (?n / 10) + ?n mod 10 < 128 =>
          assert (n / 10 < 8) by (apply N.Div0.div_lt_upper_bound; lia);
          assert (n mod 10 < 10) by (apply N.mod_upper_bound; lia); lia
      end. }
  cbn [map]; rewrite !bcd_decode by lia.
  cbn [_bcdDigits slice slice_from skipn firstn Nat.sub join concat app].
  rewrite int_year, !int_two_digits by lia.
  reflexivity.
Qed.

Lemma read_datetime_bcd_witness :
  _send_to_device Sample.device [x00; x0c; x0c] 10
    (effective_timeout Sample.device 0)
    (Sample.world_of (Sample.answering Scenario.leap_day_reply))
  = (Ret (RBytes Scenario.leap_day_reply),
     snd (_send_to_device Sample.device [x00; x0c; x0c] 10 1
            (Sample.world_of (Sample.answering Scenario.leap_day_reply))))
  /\ map Byte.to_N (slice 2 8 Scenario.leap_day_reply)
     = map bcd [29; 2; 24; 23; 59; 58]
  /\ Forall (fun n => n < 80) [29; 2; 24; 23; 59; 58]
  /\ read_datetime Sample.device 0
       (Sample.world_of (Sample.answering Scenario.leap_day_reply))
     = (Ret {| year := 2024; month := 2; day := 29;
               hour := 23; minute := 59; second := 58 |},
        snd (_send_to_device Sample.device [x00; x0c; x0c] 10 1
               (Sample.world_of (Sample.answering Scenario.leap_day_reply)))).
Proof.
  assert (H : Forall (fun n => n < 80) [29; 2; 24; 23; 59; 58])
    by (repeat constructor).
  split; [reflexivity|]; split; [reflexivity|]; split; [exact H|].
  apply (read_datetime_bcd Sample.device 0
           (Sample.world_of (Sample.answering Scenario.leap_day_reply))
           (snd (_send_to_device Sample.device [x00; x0c; x0c] 10 1
                   (Sample.world_of (Sample.answering Scenario.leap_day_reply))))
           Scenario.leap_day_reply 29 2 24 23 59 58);
    [reflexivity | reflexivity | exact H].
Defined.

Lemma utf8_decode_ascii_first (b : N) (rest : list N) :
  b < 128 -> utf8_decode (b :: rest) = option_map (cons b) (utf8_decode rest).
Proof. intros Hb; cbn [utf8_decode]; apply N.ltb_lt in Hb as ->; reflexivity. Qed.

Lemma bcd_high_year (yy : N) : 80 <= yy <= 99 -> 128 <= bcd yy <= 191.
Proof.
  intros H; unfold bcd.
  assert (8 <= yy / 10) by (apply N.div_le_lower_bound; lia).
  assert (yy / 10 < 10) by (apply N.Div0.div_lt_upper_bound; lia).
  assert (yy mod 10 < 10) by (apply N.mod_upper_bound; lia).
  generalize dependent (yy / 10); generalize dependent (yy mod 10).
  intros r Hr q Hq1 Hq2; lia.
Qed.

(** X15.  When the year field of the reply packs a year from 80 to 99 (the
    years 2080 to 2099), after a day and a month byte below 0x80,
    [read_datetime] raises [UnicodeDecodeError]: the year byte, 0x80 or
    above, is not the start of a UTF-8 character. *)
Theorem read_datetime_year_2080_raises (self : client) (timeout : Z)
    (w w' : world) (b0 b1 bd bm byr : byte) (rest : list byte) (yy : N) :
  _send_to_device self [x00; x0c; x0c] 10 (effective_timeout self timeout) w
  = (Ret (RBytes (b0 :: b1 :: bd :: bm :: byr :: rest)), w') ->
  Byte.to_N bd < 128 -> Byte.to_N bm < 128 ->
  80 <= yy <= 99 -> Byte.to_N byr = bcd yy ->
  read_datetime self timeout w = (Raise UnicodeDecodeError, w').
Proof.
  intros Hsend Hd Hm Hyy Hyr.
  rewrite (read_datetime_unfold _ _ _ _ _ Hsend); f_equal.
  unfold datetime_of_reply, slice.
  cbn [skipn firstn Nat.sub map].
  rewrite !utf8_decode_ascii_first by assumption.
  rewrite utf8_decode_continuation_first
    by (rewrite Hyr; apply bcd_high_year; exact Hyy).
  reflexivity.
Qed.

Lemma read_datetime_year_2080_raises_witness :
  _send_to_device Sample.device [x00; x0c; x0c] 10
    (effective_timeout Sample.device 0)
    (Sample.world_of (Sample.answering Scenario.year_2085_reply))
  = (Ret (RBytes Scenario.year_2085_reply),
     snd (_send_to_device Sample.device [x00; x0c; x0c] 10 1
            (Sample.world_of (Sample.answering Scenario.year_2085_reply))))
  /\ Byte.to_N x01 < 128 /\ 80 <= 85 <= 99 /\ Byte.to_N x85 = bcd 85
  /\ read_datetime Sample.device 0
       (Sample.world_of (Sample.answering Scenario.year_2085_reply))
     = (Raise UnicodeDecodeError,
        snd (_send_to_device Sample.device [x00; x0c; x0c] 10 1
               (Sample.world_of (Sample.answering Scenario.year_2085_reply)))).
Proof.
  assert (Hd : Byte.to_N x01 < 128) by reflexivity.
  assert (Hy : 80 <= 85 <= 99) by lia.
  split; [reflexivity|]; split; [exact Hd|]; split; [exact Hy|].
  split; [reflexivity|].
  apply (read_datetime_year_2080_raises Sample.device 0
           (Sample.world_of (Sample.answering Scenario.year_2085_reply))
           (snd (_send_to_device Sample.device [x00; x0c; x0c] 10 1
                   (Sample.world_of
                      (Sample.answering Scenario.year_2085_reply))))
           x00 x0c x01 x01 x85 [x00; x00; x00; x00; x0c] 85);
    [reflexivity | exact Hd | exact Hd | exact Hy | reflexivity].
Defined.

(** X16.  On every non-empty reply of fewer than 8 bytes [read_datetime]
    raises ([ValueError], or [UnicodeDecodeError] when the bytes present are
    not UTF-8 text): a short read never gives a timestamp, not even the
    sentinel. *)
Theorem read_datetime_short_reply (self : client) (timeout : Z)
    (w w' : world) (data : list byte) :
  _send_to_device self [x00; x0c; x0c] 10 (effective_timeout self timeout) w
  = (Ret (RBytes data), w') ->
  data <> [] -> (length data < 8)%nat ->
  read_datetime self timeout w = (Raise ValueError, w')
  \/ read_datetime self timeout w = (Raise UnicodeDecodeError, w').
Proof.
  intros Hsend Hne Hlen.
  rewrite (read_datetime_unfold _ _ _ _ _ Hsend).
  destruct data as [|b data]; [contradiction|].
  unfold datetime_of_reply.
  destruct (utf8_decode _) as [chars|] eqn:E; [left | right; reflexivity].
  apply (utf8_decode_length _ _ _ (le_n _)) in E.
  rewrite length_map in E.
  assert (Hs : (length (slice 2 8 (b :: data)) <= 5)%nat).
  { unfold slice; rewrite length_firstn, length_skipn; lia. }
  pose proof (bcdDigits_length_le chars) as Hd.
  unfold slice_from at 1; rewrite skipn_all2 by lia.
  cbn [join concat int_of].
  repeat match goal with
         | |- context [match int_of ?b ?s with _ => _ end] =>
             destruct (int_of b s)
         end; reflexivity.
Qed.

Lemma read_datetime_short_reply_witness :
  _send_to_device Sample.device [x00; x0c; x0c] 10
    (effective_timeout Sample.device 0)
    (Sample.world_of (Sample.answering [x00; x0c; x05; x09; x23; x14; x30]))
  = (Ret (RBytes [x00; x0c; x05; x09; x23; x14; x30]),
     snd (_send_to_device Sample.device [x00; x0c; x0c] 10 1
            (Sample.world_of
               (Sample.answering [x00; x0c; x05; x09; x23; x14; x30]))))
  /\ [x00; x0c; x05; x09; x23; x14; x30] <> []
  /\ (length [x00; x0c; x05; x09; x23; x14; x30] < 8)%nat
  /\ (read_datetime Sample.device 0
        (Sample.world_of
           (Sample.answering [x00; x0c; x05; x09; x23; x14; x30]))
      = (Raise ValueError,
         snd (_send_to_device Sample.device [x00; x0c; x0c] 10 1
                (Sample.world_of
                   (Sample.answering [x00; x0c; x05; x09; x23; x14; x30]))))
      \/ read_datetime Sample.device 0
           (Sample.world_of
              (Sample.answering [x00; x0c; x05; x09; x23; x14; x30]))
         = (Raise UnicodeDecodeError,
            snd (_send_to_device Sample.device [x00; x0c; x0c] 10 1
                   (Sample.world_of
                      (Sample.answering
                         [x00; x0c; x05; x09; x23; x14; x30]))))).
Proof.
  assert (Hne : [x00; x0c; x05; x09; x23; x14; x30] <> []) by discriminate.
  assert (Hlen : (length [x00; x0c; x05; x09; x23; x14; x30] < 8)%nat)
    by (simpl; lia).
  split; [reflexivity|]; split; [exact Hne|]; split; [exact Hlen|].
  apply (read_datetime_short_reply Sample.device 0
           (Sample.world_of
              (Sample.answering [x00; x0c; x05; x09; x23; x14; x30]))
           (snd (_send_to_device Sample.device [x00; x0c; x0c] 10 1
                   (Sample.world_of
                      (Sample.answering
                         [x00; x0c; x05; x09; x23; x14; x30]))))
           [x00; x0c; x05; x09; x23; x14; x30]);
    [reflexivity | exact Hne | exact Hlen].
Defined.

(** ** [read_rxfm_version] *)

Lemma bind_ext {A B} (m : IO A) (k k' : A -> IO B) (w : world) :
  (forall a w', k a w' = k' a w') -> bind m k w = bind m k' w.
Proof.
  intros E; unfold bind; destruct (m w) as [[a|e] w']; [apply E | reflexivity].
Qed.

Lemma read_rxfm_version_unfold (self : client) (dev_type dev_can_address : Z)
    (timeout : Z) (w : world) (frame : list byte) :
  _add_checksum (version_request dev_type dev_can_address) = Ret frame ->
  read_rxfm_version self dev_type dev_can_address timeout w
  = bind (_send_to_device self frame 11 (effective_timeout self timeout))
         (fun response => lift (version_of_reply response)) w.
Proof.
  intros Hframe; unfold read_rxfm_version; cbv zeta.
  change (lit "003d" ++ (lit "0" ++ str_Z dev_type)
          ++ lit "0" ++ str_Z (dev_can_address - 1))
    with (version_request dev_type dev_can_address).
  rewrite (lift_bind _ _ _ _ Hframe).
  apply bind_ext; intros r w'; unfold version_of_reply.
  destruct r as [|[|b data]]; reflexivity.
Qed.

Lemma version_request_frame (dev_type dev_can_address : Z) :
  (0 <= dev_type <= 9)%Z -> (1 <= dev_can_address <= 10)%Z ->
  exists b1 b2 b3,
    Byte.of_N (Z.to_N dev_type) = Some b1
    /\ Byte.of_N (Z.to_N (dev_can_address - 1)) = Some b2
    /\ Byte.of_N (0x3d + Z.to_N dev_type + Z.to_N (dev_can_address - 1))
       = Some b3
    /\ _add_checksum (version_request dev_type dev_can_address)
       = Ret [x00; x3d; b1; b2; b3].
Proof.
  intros Ht Ha.
  assert (Hin : In dev_type (map Z.of_nat (seq 0 10)))
    by (apply Z_below_In; lia).
  assert (Hin' : In (dev_can_address - 1)%Z (map Z.of_nat (seq 0 10)))
    by (apply Z_below_In; lia).
  unfold version_request.
  remember (dev_can_address - 1)%Z as a eqn:Ea; clear Ea Ha Ht.
  simpl in Hin, Hin'.
  repeat (destruct Hin as [<-|Hin];
          [repeat (destruct Hin' as [<-|Hin'];
                   [eexists _, _, _; repeat split; reflexivity|]);
           destruct Hin'|]);
    destruct Hin.
Qed.

(** X17.  For a receptor type from 0 to 9 and a receptor address from 1 to
    10, the request of [read_rxfm_version] is the five bytes 00 3d, the
    type, the address minus one, and their checksum 0x3d + type + address
    - 1; eleven bytes are asked for in reply. *)
Theorem read_rxfm_version_request (self : client)
    (dev_type dev_can_address : Z) (timeout : Z) (w : world) :
  (0 <= dev_type <= 9)%Z -> (1 <= dev_can_address <= 10)%Z ->
  exists b1 b2 b3,
    Byte.to_N b1 = Z.to_N dev_type
    /\ Byte.to_N b2 = Z.to_N (dev_can_address - 1)
    /\ Byte.to_N b3 = 0x3d + Z.to_N dev_type + Z.to_N (dev_can_address - 1)
    /\ read_rxfm_version self dev_type dev_can_address timeout w
       = bind (_send_to_device self [x00; x3d; b1; b2; b3] 11
                 (effective_timeout self timeout))
              (fun response => lift (version_of_reply response)) w.
Proof.
  intros Ht Ha.
  destruct (version_request_frame dev_type dev_can_address Ht Ha)
    as (b1 & b2 & b3 & E1 & E2 & E3 & Hframe).
  exists b1, b2, b3.
  apply Byte.to_of_N in E1, E2, E3.
  repeat split; try assumption.
  apply read_rxfm_version_unfold; exact Hframe.
Qed.

Lemma read_rxfm_version_request_witness :
  (0 <= 1 <= 9)%Z /\ (1 <= 8 <= 10)%Z
  /\ exists b1 b2 b3,
       Byte.to_N b1 = Z.to_N 1
       /\ Byte.to_N b2 = Z.to_N (8 - 1)
       /\ Byte.to_N b3 = 0x3d + Z.to_N 1 + Z.to_N (8 - 1)
       /\ read_rxfm_version Sample.device 1 8 0
            (Sample.world_of (Sample.answering Scenario.version_reply))
          = bind (_send_to_device Sample.device [x00; x3d; b1; b2; b3] 11
                    (effective_timeout Sample.device 0))
                 (fun response => lift (version_of_reply response))
                 (Sample.world_of (Sample.answering Scenario.version_reply)).
Proof.
  assert (Ht : (0 <= 1 <= 9)%Z) by lia.
  assert (Ha : (1 <= 8 <= 10)%Z) by lia.
  split; [exact Ht|]; split; [exact Ha|].
  apply (read_rxfm_version_request Sample.device 1 8 0 _ Ht Ha).
Defined.

Lemma str_Z_negative (z : Z) : (z < 0)%Z -> exists s, str_Z z = "-"%char :: s.
Proof.
  intros Hz; unfold str_Z; apply Z.ltb_lt in Hz as ->; eauto.
Qed.

Lemma hex_string_no_minus (a b : pystr) : ~ hex_string (a ++ "-"%char :: b).
Proof.
  intros [_ H]; rewrite forallb_app in H; cbn [forallb] in H.
  change (is_hex_digit "-") with false in H.
  rewrite andb_false_r in H; discriminate H.
Qed.

(** X18.  With a negative receptor type, or a receptor address of 0 or
    below, [read_rxfm_version] raises [ValueError] before any socket is
    created: the minus sign of the decimal text is not a hexadecimal
    digit. *)
Theorem read_rxfm_version_negative_raises (self : client)
    (dev_type dev_can_address : Z) (timeout : Z) (w : world) :
  (dev_type < 0)%Z \/ (dev_can_address <= 0)%Z ->
  read_rxfm_version self dev_type dev_can_address timeout w
  = (Raise ValueError, w).
Proof.
  intros H; unfold read_rxfm_version; cbv zeta.
  rewrite add_checksum_raises; [reflexivity|].
  destruct H as [H | H].
  - destruct (str_Z_negative dev_type H) as [s ->].
    apply (hex_string_no_minus (lit "003d" ++ lit "0")
             (s ++ lit "0" ++ str_Z (dev_can_address - 1))).
  - destruct (str_Z_negative (dev_can_address - 1)) as [s ->]; [lia|].
    rewrite !app_assoc.
    apply hex_string_no_minus.
Qed.

Lemma read_rxfm_version_negative_raises_witness :
  ((1 < 0)%Z \/ (0 <= 0)%Z)
  /\ read_rxfm_version Sample.device 1 0 0
       (Sample.world_of (Sample.answering Scenario.version_reply))
     = (Raise ValueError,
        Sample.world_of (Sample.answering Scenario.version_reply)).
Proof.
  assert (H : (1 < 0)%Z \/ (0 <= 0)%Z) by (right; lia).
  split; [exact H|].
  apply (read_rxfm_version_negative_raises Sample.device 1 0 0 _ H).
Defined.

Lemma mapM_length {A B} (f : A -> option B) (l : list A) (l' : list B) :
  mapM f l = Some l' -> length l' = length l.
Proof.
  revert l'; induction l as [|a l IH]; intros l' H; cbn [mapM] in H.
  - injection H as <-; reflexivity.
  - destruct (f a); [|discriminate H].
    destruct (mapM f l) as [bs|]; [|discriminate H].
    injection H as <-; cbn [length]; rewrite (IH bs eq_refl); reflexivity.
Qed.

Lemma version_of_reply_length (r : reply) (v : pystr) :
  version_of_reply r = Ret v -> (length v <= 5)%nat.
Proof.
  unfold version_of_reply.
  destruct r as [|[|b data]]; cbn [truthy];
    try (intros E; injection E as <-; cbn; lia).
  unfold ascii_decode.
  destruct (mapM _ _) as [s|] eqn:E; [|discriminate].
  intros E'; injection E' as <-.
  apply mapM_length in E; rewrite E.
  unfold slice; rewrite length_firstn; lia.
Qed.

(** X19.  Whatever the reply, a version string returned by
    [read_rxfm_version] has at most 5 characters. *)
Theorem read_rxfm_version_length (self : client)
    (dev_type dev_can_address : Z) (timeout : Z) (w : world) (v : pystr) :
  fst (read_rxfm_version self dev_type dev_can_address timeout w) = Ret v ->
  (length v <= 5)%nat.
Proof.
  destruct (add_checksum_outcome (version_request dev_type dev_can_address))
    as [[frame Hframe] | Hraise].
  - rewrite (read_rxfm_version_unfold _ _ _ _ _ _ Hframe); unfold bind, lift.
    destruct (_send_to_device _ _ _ _ _) as [[r|e] w']; cbn [fst];
      [apply version_of_reply_length | discriminate].
  - unfold read_rxfm_version; cbv zeta.
    change (lit "003d" ++ (lit "0" ++ str_Z dev_type)
            ++ lit "0" ++ str_Z (dev_can_address - 1))
      with (version_request dev_type dev_can_address).
    rewrite Hraise; discriminate.
Qed.

Lemma read_rxfm_version_length_witness :
  fst (read_rxfm_version Sample.device 1 1 0
         (Sample.world_of (Sample.answering Scenario.version_reply)))
  = Ret (lit "2005y")
  /\ (length (lit "2005y") <= 5)%nat.
Proof.
  assert (H : fst (read_rxfm_version Sample.device 1 1 0
                     (Sample.world_of
                        (Sample.answering Scenario.version_reply)))
              = Ret (lit "2005y")) by reflexivity.
  split; [exact H|].
  apply (read_rxfm_version_length Sample.device 1 1 0 _ _ H).
Defined.

Lemma ascii_decode_not_ascii (bs : list byte) :
  Exists (fun b => 128 <= Byte.to_N b) bs -> ascii_decode bs = None.
Proof.
  unfold ascii_decode; induction 1 as [b bs Hb | b bs _ IH]; cbn [mapM].
  - apply N.ltb_ge in Hb as ->; reflexivity.
  - rewrite IH; destruct (_ <? _); reflexivity.
Qed.

(** X20.  Once the request is framed and the transport has returned
    [data], [read_rxfm_version] returns bytes 4..9 of [data] as text when
    they are all below 0x80 (the empty string when [data] has no more than
    4 bytes), and raises [UnicodeDecodeError] when one of them is 0x80 or
    above. *)
Theorem read_rxfm_version_reply (self : client)
    (dev_type dev_can_address : Z) (timeout : Z) (w w' : world)
    (frame data : list byte) :
  _add_checksum (version_request dev_type dev_can_address) = Ret frame ->
  _send_to_device self frame 11 (effective_timeout self timeout) w
  = (Ret (RBytes data), w') ->
  (Forall (fun b => Byte.to_N b < 128) (slice 4 9 data) ->
   read_rxfm_version self dev_type dev_can_address timeout w
   = (Ret (map ascii_of_byte (slice 4 9 data)), w'))
  /\ (Exists (fun b => 128 <= Byte.to_N b) (slice 4 9 data) ->
      read_rxfm_version self dev_type dev_can_address timeout w
      = (Raise UnicodeDecodeError, w')).
Proof.
  intros Hframe Hsend.
  rewrite (read_rxfm_version_unfold _ _ _ _ _ _ Hframe).
  rewrite (bind_ret _ _ _ _ _ Hsend); unfold lift, version_of_reply.
  split; intros H.
  - destruct data as [|b data]; [reflexivity|]; cbn [truthy].
    rewrite (ascii_decode_ascii _ H); reflexivity.
  - destruct data as [|b data]; [inversion H|]; cbn [truthy].
    rewrite (ascii_decode_not_ascii _ H); reflexivity.
Qed.

Lemma read_rxfm_version_reply_witness :
  Forall (fun b => Byte.to_N b < 128) (slice 4 9 Scenario.version_reply)
  /\ read_rxfm_version Sample.device 1 1 0
       (Sample.world_of (Sample.answering Scenario.version_reply))
     = (Ret (map ascii_of_byte (slice 4 9 Scenario.version_reply)),
        snd (_send_to_device Sample.device [x00; x3d; x01; x00; x3e] 11 1
               (Sample.world_of (Sample.answering Scenario.version_reply))))
  /\ Exists (fun b => 128 <= Byte.to_N b) (slice 4 9 [x00; x3d; x01; x00; xff])
  /\ read_rxfm_version Sample.device 1 1 0
       (Sample.world_of (Sample.answering [x00; x3d; x01; x00; xff]))
     = (Raise UnicodeDecodeError,
        snd (_send_to_device Sample.device [x00; x3d; x01; x00; x3e] 11 1
               (Sample.world_of (Sample.answering [x00; x3d; x01; x00; xff])))).
Proof.
  assert (H1 : Forall (fun b => Byte.to_N b < 128)
                 (slice 4 9 Scenario.version_reply))
    by (repeat constructor).
  assert (H2 : Exists (fun b => 128 <= Byte.to_N b)
                 (slice 4 9 [x00; x3d; x01; x00; xff]))
    by (left; vm_compute; discriminate).
  assert (F : _add_checksum (version_request 1 1)
              = Ret [x00; x3d; x01; x00; x3e]) by reflexivity.
  split; [exact H1|]; split; [|split; [exact H2|]].
  - apply (proj1 (read_rxfm_version_reply Sample.device 1 1 0
                    (Sample.world_of (Sample.answering Scenario.version_reply))
                    (snd (_send_to_device Sample.device
                            [x00; x3d; x01; x00; x3e] 11 1
                            (Sample.world_of
                               (Sample.answering Scenario.version_reply))))
                    [x00; x3d; x01; x00; x3e] Scenario.version_reply
                    F eq_refl) H1).
  - apply (proj2 (read_rxfm_version_reply Sample.device 1 1 0
                    (Sample.world_of
                       (Sample.answering [x00; x3d; x01; x00; xff]))
                    (snd (_send_to_device Sample.device
                            [x00; x3d; x01; x00; x3e] 11 1
                            (Sample.world_of
                               (Sample.answering
                                  [x00; x3d; x01; x00; xff]))))
                    [x00; x3d; x01; x00; x3e] [x00; x3d; x01; x00; xff]
                    F eq_refl) H2).
Defined.
